(** * EvidenceChain: the evidence ledger and its transition rules

    A shallow embedding of [contracts/EvidenceChain.sol] together with the
    part of the service layer ([backend/utils/blockchain.js] and the
    [/upload] handler of [backend/routes/evidence.js]) that turns a
    duplicate submission into a conflict answer.

    Conventions.
    - [bytes32], [address] and [uint256] values are integers ([Z]) in the
      range of their type; the only arithmetic of the contract,
      [totalEvidence++], is checked (Solidity 0.8) and is modelled with its
      overflow panic.
    - A Solidity [mapping] is a finite map read with the zero value of its
      value type as default.
    - An external function is a computation over the contract storage and
      the event log that may fail; [call] runs it as a transaction, which
      rolls every write back when it fails.
    - [keccak256] is a parameter of the development. *)

From stdpp Require Import base option list gmap strings fin_maps.
From Stdlib Require Import ZArith Lia.
From Stdlib.Strings Require Import Byte.

Local Open Scope Z_scope.

(** ** Data structures *)

Inductive EvidenceStatus := Active | UnderReview | Archived | Disputed.

Record Evidence := mkEvidence {
  fileHash    : string;
  ipfsHash    : string;
  fileName    : string;
  fileType    : string;
  fileSize    : Z;
  description : string;
  caseId      : string;
  timestamp   : Z;
  uploader    : Z;
  isSealed    : bool;
  status      : EvidenceStatus
}.

(** [AuditLog.timestamp] of the source is [logTimestamp] here: a record
    field name is global. *)
Record AuditLog := mkAuditLog {
  actor        : Z;
  action       : string;
  logTimestamp : Z;
  notes        : string
}.

Inductive Event :=
| EvidenceAdded (evidenceId : Z) (hash name case : string) (by_ : Z) (at_ : Z)
| EvidenceSealed (evidenceId : Z) (sealedBy : Z)
| EvidenceStatusUpdated (evidenceId : Z) (newStatus : EvidenceStatus) (updatedBy : Z)
| EvidenceAuditLogged (evidenceId : Z) (who : Z) (what : string).

(** ** Storage *)

Record Storage := mkStorage {
  evidenceStore    : gmap Z Evidence;
  auditLogs        : gmap Z (list AuditLog);
  uploaderEvidence : gmap Z (list Z);
  hashToId         : gmap string Z;
  allEvidenceIds   : list Z;
  owner            : Z;
  totalEvidence    : Z
}.

(** The zero value of [Evidence], what an unwritten slot reads as. *)
Definition zeroEvidence : Evidence :=
  mkEvidence "" "" "" "" 0 "" "" 0 0 false Active.

(** Reads of the four mappings. *)
Definition evidenceAt (s : Storage) (evidenceId : Z) : Evidence :=
  default zeroEvidence (evidenceStore s !! evidenceId).
Definition logsAt (s : Storage) (evidenceId : Z) : list AuditLog :=
  default [] (auditLogs s !! evidenceId).
Definition idsOf (s : Storage) (who : Z) : list Z :=
  default [] (uploaderEvidence s !! who).
Definition idOfHash (s : Storage) (hash : string) : Z :=
  default 0 (hashToId s !! hash).

(** [bytes(str).length] *)
Definition bytesLength (str : string) : Z := Z.of_nat (String.length str).

Definition max_uint256 : Z := 2 ^ 256 - 1.

(** Writes. *)
Definition setEvidence (evidenceId : Z) (e : Evidence) (s : Storage) : Storage :=
  mkStorage (<[evidenceId := e]> (evidenceStore s)) (auditLogs s)
            (uploaderEvidence s) (hashToId s) (allEvidenceIds s) (owner s)
            (totalEvidence s).

Definition setHashToId (hash : string) (evidenceId : Z) (s : Storage) : Storage :=
  mkStorage (evidenceStore s) (auditLogs s) (uploaderEvidence s)
            (<[hash := evidenceId]> (hashToId s)) (allEvidenceIds s) (owner s)
            (totalEvidence s).

Definition pushUploaderEvidence (who evidenceId : Z) (s : Storage) : Storage :=
  mkStorage (evidenceStore s) (auditLogs s)
            (<[who := idsOf s who ++ [evidenceId]]> (uploaderEvidence s))
            (hashToId s) (allEvidenceIds s) (owner s) (totalEvidence s).

Definition pushAllEvidenceIds (evidenceId : Z) (s : Storage) : Storage :=
  mkStorage (evidenceStore s) (auditLogs s) (uploaderEvidence s) (hashToId s)
            (allEvidenceIds s ++ [evidenceId]) (owner s) (totalEvidence s).

Definition setTotalEvidence (n : Z) (s : Storage) : Storage :=
  mkStorage (evidenceStore s) (auditLogs s) (uploaderEvidence s) (hashToId s)
            (allEvidenceIds s) (owner s) n.

Definition pushAuditLog (evidenceId : Z) (l : AuditLog) (s : Storage) : Storage :=
  mkStorage (evidenceStore s)
            (<[evidenceId := logsAt s evidenceId ++ [l]]> (auditLogs s))
            (uploaderEvidence s) (hashToId s) (allEvidenceIds s) (owner s)
            (totalEvidence s).

Definition withSealed (b : bool) (e : Evidence) : Evidence :=
  mkEvidence (fileHash e) (ipfsHash e) (fileName e) (fileType e) (fileSize e)
             (description e) (caseId e) (timestamp e) (uploader e) b (status e).

Definition withStatus (st : EvidenceStatus) (e : Evidence) : Evidence :=
  mkEvidence (fileHash e) (ipfsHash e) (fileName e) (fileType e) (fileSize e)
             (description e) (caseId e) (timestamp e) (uploader e) (isSealed e) st.

(** ** Transactions *)

Record Context := mkContext {
  msg_sender      : Z;
  block_timestamp : Z;
  block_number    : Z
}.

Inductive Failure :=
| Revert (reason : string)
| Panic (code : Z).

Record Machine := mkMachine {
  storage : Storage;
  emitted : list Event
}.

Definition Tx (A : Type) : Type := Machine -> (Failure + A) * Machine.

Definition ret {A} (a : A) : Tx A := fun m => (inr a, m).

Definition bind {A B} (x : Tx A) (f : A -> Tx B) : Tx B :=
  fun m => match x m with
           | (inr a, m') => f a m'
           | (inl e, m') => (inl e, m')
           end.

#[global] Instance Tx_ret : MRet Tx := @ret.
#[global] Instance Tx_bind : MBind Tx := fun A B f x => bind x f.

Definition require (b : bool) (reason : string) : Tx unit :=
  fun m => if b then (inr tt, m) else (inl (Revert reason), m).

Definition panic {A} (code : Z) : Tx A := fun m => (inl (Panic code), m).

Definition sload : Tx Storage := fun m => (inr (storage m), m).

Definition sstore (f : Storage -> Storage) : Tx unit :=
  fun m => (inr tt, mkMachine (f (storage m)) (emitted m)).

Definition emit (e : Event) : Tx unit :=
  fun m => (inr tt, mkMachine (storage m) (emitted m ++ [e])).

(** One transaction: the body runs on the current storage with an empty
    event log; a failure discards what the body wrote. *)
Definition call {A} (body : Tx A) (s : Storage)
  : (Failure + (A * list Event)) * Storage :=
  match body (mkMachine s []) with
  | (inr a, m) => (inr (a, emitted m), storage m)
  | (inl e, _) => (inl e, s)
  end.

(** ** abi.encodePacked *)

Definition byte_of_Z (z : Z) : byte :=
  default x00 (Byte.of_N (Z.to_N (z mod 256))).

Fixpoint le_bytes (n : nat) (z : Z) : list byte :=
  match n with
  | O => []
  | S n' => byte_of_Z z :: le_bytes n' (z / 256)
  end.

(** A value of a fixed-width type: [n] bytes, most significant first. *)
Definition be_bytes (n : nat) (z : Z) : list byte := rev (le_bytes n z).

(** [abi.encodePacked(string, address, uint256, uint256)] *)
Definition encodePacked (hash : string) (sender time number : Z) : list byte :=
  String.list_byte_of_string hash ++ be_bytes 20 sender ++ be_bytes 32 time
    ++ be_bytes 32 number.

(** ** Error messages *)

Definition FILE_HASH_REQUIRED : string := "File hash required".
Definition FILE_NAME_REQUIRED : string := "File name required".
Definition ALREADY_EXISTS : string := "Evidence with this hash already exists".
Definition NOT_FOUND : string := "Evidence not found".
Definition IS_SEALED : string := "Evidence is sealed".
Definition NOT_AUTHORIZED_TO_SEAL : string := "Not authorized to seal".
Definition NOT_AUTHORIZED : string := "Not authorized".

(** ** The contract *)

Definition constructor (c : Context) : Storage :=
  mkStorage ∅ ∅ ∅ ∅ [] (msg_sender c) 0.

(** *** Modifiers *)

Definition recordExists (s : Storage) (evidenceId : Z) : bool :=
  0 <? bytesLength (fileHash (evidenceAt s evidenceId)).

Definition evidenceExists (evidenceId : Z) : Tx unit :=
  s ← sload;
  require (recordExists s evidenceId) NOT_FOUND.

Definition notSealed (evidenceId : Z) : Tx unit :=
  s ← sload;
  require (negb (isSealed (evidenceAt s evidenceId))) IS_SEALED.

(** [msg.sender == evidenceStore[evidenceId].uploader || msg.sender == owner] *)
Definition mayMutate (c : Context) (s : Storage) (evidenceId : Z) : bool :=
  (msg_sender c =? uploader (evidenceAt s evidenceId))
  || (msg_sender c =? owner s).

Section Contract.

(** The digest function of the chain. *)
Variable keccak256 : list byte -> Z.

(** The identifier [addEvidence] derives. *)
Definition deriveId (c : Context) (fileHash : string) : Z :=
  keccak256 (encodePacked fileHash (msg_sender c) (block_timestamp c)
                          (block_number c)).

(** *** Core functions *)

Definition addEvidence (c : Context)
    (fileHash ipfsHash fileName fileType : string) (fileSize : Z)
    (description caseId : string) : Tx Z :=
  require (0 <? bytesLength fileHash) FILE_HASH_REQUIRED;;
  require (0 <? bytesLength fileName) FILE_NAME_REQUIRED;;
  s ← sload;
  require (idOfHash s fileHash =? 0) ALREADY_EXISTS;;
  let evidenceId := deriveId c fileHash in
  sstore (setEvidence evidenceId
            (mkEvidence fileHash ipfsHash fileName fileType fileSize
                        description caseId (block_timestamp c) (msg_sender c)
                        false Active));;
  sstore (setHashToId fileHash evidenceId);;
  sstore (pushUploaderEvidence (msg_sender c) evidenceId);;
  sstore (pushAllEvidenceIds evidenceId);;
  s ← sload;
  (if totalEvidence s <? max_uint256
   then sstore (setTotalEvidence (totalEvidence s + 1))
   else panic 17);;
  sstore (pushAuditLog evidenceId
            (mkAuditLog (msg_sender c) "EVIDENCE_ADDED" (block_timestamp c)
                        "Initial upload"));;
  emit (EvidenceAdded evidenceId fileHash fileName caseId (msg_sender c)
                      (block_timestamp c));;
  mret evidenceId.

Definition sealEvidence (c : Context) (evidenceId : Z) : Tx unit :=
  evidenceExists evidenceId;;
  notSealed evidenceId;;
  s ← sload;
  require (mayMutate c s evidenceId) NOT_AUTHORIZED_TO_SEAL;;
  s ← sload;
  sstore (setEvidence evidenceId (withSealed true (evidenceAt s evidenceId)));;
  sstore (pushAuditLog evidenceId
            (mkAuditLog (msg_sender c) "EVIDENCE_SEALED" (block_timestamp c)
                        "Evidence sealed for integrity"));;
  emit (EvidenceSealed evidenceId (msg_sender c)).

Definition updateStatus (c : Context) (evidenceId : Z)
    (newStatus : EvidenceStatus) (notes : string) : Tx unit :=
  evidenceExists evidenceId;;
  notSealed evidenceId;;
  s ← sload;
  require (mayMutate c s evidenceId) NOT_AUTHORIZED;;
  s ← sload;
  sstore (setEvidence evidenceId (withStatus newStatus (evidenceAt s evidenceId)));;
  sstore (pushAuditLog evidenceId
            (mkAuditLog (msg_sender c) "STATUS_UPDATED" (block_timestamp c)
                        notes));;
  emit (EvidenceStatusUpdated evidenceId newStatus (msg_sender c)).

Definition logAudit (c : Context) (evidenceId : Z) (action notes : string)
  : Tx unit :=
  evidenceExists evidenceId;;
  sstore (pushAuditLog evidenceId
            (mkAuditLog (msg_sender c) action (block_timestamp c) notes));;
  emit (EvidenceAuditLogged evidenceId (msg_sender c) action).

(** *** Verification and getters (view functions) *)

Definition verifyEvidence (fileHash : string) : Tx (bool * Z * Z * Z) :=
  s ← sload;
  let evidenceId := idOfHash s fileHash in
  if evidenceId =? 0 then mret (false, 0, 0, 0)
  else
    let e := evidenceAt s evidenceId in
    mret (true, evidenceId, uploader e, timestamp e).

Definition getEvidence (evidenceId : Z) : Tx Evidence :=
  evidenceExists evidenceId;;
  s ← sload;
  mret (evidenceAt s evidenceId).

Definition getEvidenceByHash (fileHash : string) : Tx Evidence :=
  s ← sload;
  let evidenceId := idOfHash s fileHash in
  require (negb (evidenceId =? 0)) NOT_FOUND;;
  mret (evidenceAt s evidenceId).

Definition getAuditLogs (evidenceId : Z) : Tx (list AuditLog) :=
  evidenceExists evidenceId;;
  s ← sload;
  mret (logsAt s evidenceId).

Definition getUploaderEvidence (who : Z) : Tx (list Z) :=
  s ← sload;
  mret (idsOf s who).

Definition getAllEvidenceIds : Tx (list Z) :=
  s ← sload;
  mret (allEvidenceIds s).

Definition getEvidenceCount : Tx Z :=
  s ← sload;
  mret (totalEvidence s).

End Contract.

(** ** Operation sequences *)

(** The state-changing external functions of the contract: every other
    external function is a [view]. *)
Inductive Call :=
| CallAddEvidence (fileHash ipfsHash fileName fileType : string) (fileSize : Z)
                  (description caseId : string)
| CallSealEvidence (evidenceId : Z)
| CallUpdateStatus (evidenceId : Z) (newStatus : EvidenceStatus) (notes : string)
| CallLogAudit (evidenceId : Z) (action notes : string).

Definition is_inr {A B} (x : A + B) : bool :=
  match x with inl _ => false | inr _ => true end.

(** What the sender of a transaction learns: the failure, or the events. *)
Definition receipt {A} (r : (Failure + (A * list Event)) * Storage)
  : (Failure + list Event) * Storage :=
  (match r.1 with
   | inl e => inl e
   | inr (_, evs) => inr evs
   end, r.2).

(** The checks of [addEvidence], the overflow check of the counter
    included, and those of [sealEvidence] and [updateStatus]. *)
Definition addEvidence_ok (h n : string) (s : Storage) : bool :=
  (0 <? bytesLength h) && (0 <? bytesLength n) && (idOfHash s h =? 0)
  && (totalEvidence s <? max_uint256).

Definition mutation_ok (c : Context) (id : Z) (s : Storage) : bool :=
  recordExists s id && negb (isSealed (evidenceAt s id)) && mayMutate c s id.

(** A record without its two mutable fields. *)
Definition metadata (e : Evidence) : Evidence :=
  withStatus Active (withSealed false e).

(** Every entry of the hash index names a record that holds the hash. *)
Definition index_consistent (s : Storage) : Prop :=
  forall h, idOfHash s h <> 0 ->
    fileHash (evidenceAt s (idOfHash s h)) = h /\ h <> "".

(** A slot that holds no record has no audit trail and is not sealed. *)
Definition blank_slots (s : Storage) : Prop :=
  forall id, recordExists s id = false ->
    logsAt s id = [] /\ isSealed (evidenceAt s id) = false.

(** The entries the contract writes by itself. *)
Definition creationEntry (c : Context) : AuditLog :=
  mkAuditLog (msg_sender c) "EVIDENCE_ADDED" (block_timestamp c) "Initial upload".
Definition sealedEntry (c : Context) : AuditLog :=
  mkAuditLog (msg_sender c) "EVIDENCE_SEALED" (block_timestamp c)
             "Evidence sealed for integrity".
Definition statusEntry (c : Context) (notes : string) : AuditLog :=
  mkAuditLog (msg_sender c) "STATUS_UPDATED" (block_timestamp c) notes.

Section Execution.

Variable keccak256 : list byte -> Z.

(** The storage a successful registration leaves. *)
Definition registered (c : Context)
    (h i n t : string) (sz : Z) (d cs : string) (s : Storage) : Storage :=
  let id := deriveId keccak256 c h in
  pushAuditLog id (creationEntry c)
    (setTotalEvidence (totalEvidence s + 1)
      (pushAllEvidenceIds id
        (pushUploaderEvidence (msg_sender c) id
          (setHashToId h id
            (setEvidence id
               (mkEvidence h i n t sz d cs (block_timestamp c) (msg_sender c)
                           false Active) s))))).

(** The function a call runs. *)
Definition body (c : Context) (op : Call) : Tx unit :=
  match op with
  | CallAddEvidence h i n t sz d cs =>
      addEvidence keccak256 c h i n t sz d cs;; mret tt
  | CallSealEvidence id => sealEvidence c id
  | CallUpdateStatus id st n => updateStatus c id st n
  | CallLogAudit id a n => logAudit c id a n
  end.

Definition exec (c : Context) (op : Call) (s : Storage)
  : (Failure + list Event) * Storage :=
  receipt (call (body c op) s).

(** The storage after a sequence of transactions, failed ones included. *)
Fixpoint run (s : Storage) (t : list (Context * Call)) : Storage :=
  match t with
  | [] => s
  | (c, op) :: t' => run (exec c op s).2 t'
  end.

(** A registration that passes its checks runs into no collision when no
    record is stored yet under the identifier it derives. The index refuses
    a hash it holds, so a record under that identifier would come from
    another packed input with the same digest (or from the same input, when
    the digest is the zero word, which the index reads as no entry). *)
Definition digest_fresh (c : Context) (op : Call) (s : Storage) : Prop :=
  match op with
  | CallAddEvidence h _ n _ _ _ _ =>
      addEvidence_ok h n s = true ->
      recordExists s (deriveId keccak256 c h) = false
  | _ => True
  end.

(** A sequence of transactions in which no registration runs into a digest
    collision. *)
Fixpoint collision_free (s : Storage) (t : list (Context * Call)) : Prop :=
  match t with
  | [] => True
  | (c, op) :: t' => digest_fresh c op s /\ collision_free (exec c op s).2 t'
  end.

(** The packed inputs a sequence of transactions hands to the digest. *)
Definition packedInput (x : Context * Call) : list (list byte) :=
  match x.2 with
  | CallAddEvidence h _ _ _ _ _ _ =>
      [encodePacked h (msg_sender x.1) (block_timestamp x.1) (block_number x.1)]
  | _ => []
  end.

Definition packedInputs (t : list (Context * Call)) : list (list byte) :=
  flat_map packedInput t.

(** The digest is collision resistant on a list of inputs when it maps
    none of them to the zero word and no two of them to one word. *)
Definition collision_resistant_on (l : list (list byte)) : Prop :=
  (forall x, x ∈ l -> keccak256 x <> 0)
  /\ (forall x y, x ∈ l -> y ∈ l -> keccak256 x = keccak256 y -> x = y).

(** Every record comes from one of the inputs [l], and the index still maps
    its hash to it. *)
Definition provenance (l : list (list byte)) (s : Storage) : Prop :=
  forall id, recordExists s id = true ->
    exists c h,
      encodePacked h (msg_sender c) (block_timestamp c) (block_number c) ∈ l
      /\ deriveId keccak256 c h = id
      /\ idOfHash s h = id.

(** Status updates of one record, each with its transaction context. *)
Definition statusUpdates (evidenceId : Z)
    (us : list (Context * EvidenceStatus * string)) : list (Context * Call) :=
  map (fun u => (u.1.1, CallUpdateStatus evidenceId u.1.2 u.2)) us.

(** Whether a call is a registration of [hash]. *)
Definition registers (hash : string) (op : Call) : bool :=
  match op with
  | CallAddEvidence h _ _ _ _ _ _ => bool_decide (h = hash)
  | _ => false
  end.

End Execution.

(** ** The ledger as a whole *)

Section Ledger.

Variable keccak256 : list byte -> Z.

(** The identifier a call registers, when it registers one. *)
Definition registration (c : Context) (op : Call) (s : Storage) : option Z :=
  match op with
  | CallAddEvidence h _ n _ _ _ _ =>
      if addEvidence_ok h n s then Some (deriveId keccak256 c h) else None
  | _ => None
  end.

(** A registration whose identifier is not the zero word. *)
Definition digest_nonzero (x : Context * Call) : Prop :=
  match x.2 with
  | CallAddEvidence h _ _ _ _ _ _ => deriveId keccak256 x.1 h <> 0
  | _ => True
  end.

(** The records are the listed identifiers, and the counter counts them. *)
Definition listed_records (s : Storage) : Prop :=
  (forall id, recordExists s id = true <-> id ∈ allEvidenceIds s)
  /\ totalEvidence s = Z.of_nat (length (allEvidenceIds s)).

(** The list of an uploader holds the records this uploader registered. *)
Definition uploader_lists (s : Storage) : Prop :=
  forall who id,
    id ∈ idsOf s who <->
    recordExists s id = true /\ uploader (evidenceAt s id) = who.

(** The entry [addEvidence] wrote for a record. *)
Definition creationEntryOf (e : Evidence) : AuditLog :=
  mkAuditLog (uploader e) "EVIDENCE_ADDED" (timestamp e) "Initial upload".

(** The audit trail of every record starts with its creation entry. *)
Definition trails_start_at_creation (s : Storage) : Prop :=
  forall id, recordExists s id = true ->
    exists later, logsAt s id = creationEntryOf (evidenceAt s id) :: later.

(** The index leads from the hash of every record back to the record. *)
Definition records_indexed (s : Storage) : Prop :=
  forall id, recordExists s id = true ->
    id <> 0 /\ idOfHash s (fileHash (evidenceAt s id)) = id.

(** A sealed record has the entry of its seal in its audit trail, written
    by its uploader or by the owner. *)
Definition seals_are_logged (s : Storage) : Prop :=
  forall id, isSealed (evidenceAt s id) = true ->
    exists l, l ∈ logsAt s id
      /\ action l = "EVIDENCE_SEALED"%string
      /\ (actor l = uploader (evidenceAt s id) \/ actor l = owner s).

End Ledger.

(** ** The service layer *)

Module Backend.

(** The request of [POST /api/evidence/upload] once multer stored the file:
    [file_hash] is [hashFile(req.file.path)]; a body field is [None] when it
    is undefined; the size and the address are given as the integer their
    text denotes, [None] when the field is undefined or empty. Whether that
    integer is a [uint256] or an [address] is for web3 to check. *)
Record UploadRequest := mkUploadRequest {
  file_hash            : string;
  file_originalname    : string;
  file_mimetype        : string;
  file_size            : Z;
  body_fileName        : option string;
  body_fileType        : option string;
  body_fileSize        : option Z;
  body_description     : option string;
  body_caseId          : option string;
  body_uploaderAddress : option Z;
  body_ipfsHash        : option string
}.

(** What a transaction sent through [blockchain.js] throws: the failure of
    the contract; an argument web3 refuses for the type of its parameter;
    a sender nobody signs for ("sender account not recognized"). *)
Inductive Error :=
| Reverted (f : Failure)
| InvalidArgument
| UnknownAccount.

Inductive Response :=
| Created (evidenceId : option Z) (hash : string)   (* 201 *)
| Conflict (evidenceId : Z)                         (* 409 *)
| ServerError (err : Error).                        (* 500 *)

(** The values web3 encodes as a [uint256] or [bytes32], and as an
    [address]. *)
Definition isUint256 (x : Z) : bool := (0 <=? x) && (x <=? max_uint256).
Definition isAddress (a : Z) : bool := (0 <=? a) && (a <? 2 ^ 160).

(** [a || b] on strings: the empty string is falsy. *)
Definition or_string (a : option string) (b : string) : string :=
  match a with
  | Some x => if 0 <? bytesLength x then x else b
  | None => b
  end.

(** [receipt.events?.EvidenceAdded?.returnValues?.evidenceId] *)
Fixpoint evidenceIdOfEvents (evs : list Event) : option Z :=
  match evs with
  | [] => None
  | EvidenceAdded id _ _ _ _ _ :: _ => Some id
  | _ :: evs' => evidenceIdOfEvents evs'
  end.

(** [Number(x)] of a non-negative integer below 2^1024 (web3 hands a
    [uint256] over as a BigInt): the nearest double, ties to even; a double
    has 53 significant bits. *)
Definition Number (x : Z) : Z :=
  let bits := Z.log2 x + 1 in
  if bits <=? 53 then x
  else
    let ulp := 2 ^ (bits - 53) in
    let q := x / ulp in
    let r := x mod ulp in
    let q' := if 2 * r <? ulp then q
              else if ulp <? 2 * r then q + 1
              else if Z.even q then q else q + 1 in
    q' * ulp.

Section Routes.

Variable keccak256 : list byte -> Z.

(** What [initBlockchain] leaves behind: the account of the service, and
    the accounts of the node ([web3.eth.getAccounts()]). The account of the
    service is in the wallet of web3 or is the first account of the node. *)
Variable deployerAccount : Z.
Variable accounts : list Z.

(** The senders a transaction is signed for, by the wallet or by the node. *)
Definition signs (from : Z) : bool :=
  bool_decide (from = deployerAccount) || bool_decide (from ∈ accounts).

(** [blockchain.verifyEvidence]: a read-only call. *)
Definition verifyEvidence (hash : string) (s : Storage)
  : Failure + (bool * Z * Z * Z) :=
  match (call (verifyEvidence hash) s).1 with
  | inl e => inl e
  | inr ((isValid, evidenceId, uploader, timestamp), _) =>
      inr (isValid, evidenceId, uploader, Number timestamp)
  end.

(** [blockchain.addEvidence]. [contract.methods.addEvidence(...)] checks the
    arguments against the types of the parameters, of which only the size
    can fail; [estimateGas] runs the call without sending it, so it needs a
    well-formed sender and meets the failure of the contract; [send] needs
    a sender somebody signs for, and the transaction is mined at [time] in
    block [number]. The gas limit, a fifth above the estimate, suffices. *)
Definition addEvidence (time number : Z)
    (fileHash ipfsHash fileName fileType : string) (fileSize : Z)
    (description caseId : string) (uploaderAddress : option Z) (s : Storage)
  : (Error + option Z) * Storage :=
  let from := default deployerAccount uploaderAddress in
  let tx := addEvidence keccak256 (mkContext from time number) fileHash
              ipfsHash fileName fileType fileSize description caseId in
  if negb (isUint256 fileSize) then (inl InvalidArgument, s)
  else if negb (isAddress from) then (inl InvalidArgument, s)
  else
    match (call tx s).1 with
    | inl e => (inl (Reverted e), s)
    | inr _ =>
        if negb (signs from) then (inl UnknownAccount, s)
        else
          match call tx s with
          | (inl e, s') => (inl (Reverted e), s')
          | (inr (_, evs), s') => (inr (evidenceIdOfEvents evs), s')
          end
    end.

(** The handler of [POST /api/evidence/upload], after the check that a file
    was sent. *)
Definition upload (time number : Z) (req : UploadRequest) (s : Storage)
  : Response * Storage :=
  match verifyEvidence (file_hash req) s with
  | inl e => (ServerError (Reverted e), s)
  | inr (isValid, evidenceId, _, _) =>
      if isValid then (Conflict evidenceId, s)
      else
        match addEvidence time number (file_hash req)
                (or_string (body_ipfsHash req) "")
                (or_string (body_fileName req) (file_originalname req))
                (or_string (body_fileType req) (file_mimetype req))
                (default (file_size req) (body_fileSize req))
                (or_string (body_description req) "")
                (or_string (body_caseId req) "")
                (body_uploaderAddress req) s with
        | (inl e, s') => (ServerError e, s')
        | (inr evidenceId, s') => (Created evidenceId (file_hash req), s')
        end
  end.

End Routes.

(** *** Reading the ledger: [blockchain.js] and the other routes *)

#[global] Instance EvidenceStatus_eq_dec : EqDecision EvidenceStatus.
Proof. solve_decision. Defined.

Definition STATUS_MAP : list string :=
  ["Active"; "UnderReview"; "Archived"; "Disputed"]%string.

(** The value an [EvidenceStatus] is returned as (a [uint8]). *)
Definition statusCode (st : EvidenceStatus) : Z :=
  match st with
  | Active => 0
  | UnderReview => 1
  | Archived => 2
  | Disputed => 3
  end.

(** [STATUS_MAP[i] || "Active"] *)
Definition statusName (i : Z) : string :=
  match (if 0 <=? i then STATUS_MAP !! Z.to_nat i else None) with
  | Some name => name
  | None => "Active"
  end.

(** The name of a status. *)
Definition statusLabel (st : EvidenceStatus) : string :=
  match st with
  | Active => "Active"
  | UnderReview => "UnderReview"
  | Archived => "Archived"
  | Disputed => "Disputed"
  end.

Record EvidenceJson := mkEvidenceJson {
  j_fileHash    : string;
  j_ipfsHash    : string;
  j_fileName    : string;
  j_fileType    : string;
  j_fileSize    : Z;
  j_description : string;
  j_caseId      : string;
  j_timestamp   : Z;
  j_uploader    : Z;
  j_isSealed    : bool;
  j_status      : string
}.

Record AuditLogJson := mkAuditLogJson {
  j_actor        : Z;
  j_action       : string;
  j_logTimestamp : Z;
  j_notes        : string
}.

Definition serializeEvidence (e : Evidence) : EvidenceJson :=
  mkEvidenceJson (fileHash e) (ipfsHash e) (fileName e) (fileType e)
    (Number (fileSize e)) (description e) (caseId e) (Number (timestamp e))
    (uploader e) (isSealed e) (statusName (Number (statusCode (status e)))).

Definition serializeLog (l : AuditLog) : AuditLogJson :=
  mkAuditLogJson (actor l) (action l) (Number (logTimestamp l)) (notes l).

(** A read-only call: the value, or the failure web3 throws. *)
Definition view {A} (m : Tx A) (s : Storage) : Failure + A :=
  match (call m s).1 with
  | inl e => inl e
  | inr (a, _) => inr a
  end.

(** [p.then(f)]: the failure of [p], or [f] of its value. *)
Definition then_ {A B} (p : Failure + A) (f : A -> B) : Failure + B :=
  match p with
  | inl e => inl e
  | inr a => inr (f a)
  end.

Definition getEvidence (evidenceId : Z) (s : Storage) : Failure + EvidenceJson :=
  then_ (view (getEvidence evidenceId) s) serializeEvidence.

Definition getEvidenceByHash (hash : string) (s : Storage)
  : Failure + EvidenceJson :=
  then_ (view (getEvidenceByHash hash) s) serializeEvidence.

Definition getAllEvidenceIds (s : Storage) : Failure + list Z :=
  view getAllEvidenceIds s.

Definition getAuditLogs (evidenceId : Z) (s : Storage)
  : Failure + list AuditLogJson :=
  then_ (view (getAuditLogs evidenceId) s) (map serializeLog).

Definition getEvidenceCount (s : Storage) : Failure + Z :=
  then_ (view getEvidenceCount s) Number.

(** [Promise.all(ids.map(f))]: the values in the order of [ids]; of several
    failures the one of the first identifier is kept. *)
Fixpoint all {A} (f : Z -> Failure + A) (ids : list Z) : Failure + list A :=
  match ids with
  | [] => inr []
  | id :: ids' =>
      match f id with
      | inl e => inl e
      | inr a =>
          match all f ids' with
          | inl e => inl e
          | inr l => inr (a :: l)
          end
      end
  end.

Inductive VerifyResponse :=
| VerifyInvalid (hash : string)
| VerifyValid (hash : string) (evidence : EvidenceJson)
              (auditLogs : list AuditLogJson)
| VerifyError (err : Failure).                      (* 500 *)

Inductive AllResponse :=
| AllOk (count : nat) (data : list (EvidenceJson * Z))
| AllError (err : Failure).                         (* 500 *)

Inductive DetailResponse :=
| DetailOk (evidence : EvidenceJson) (auditLogs : list AuditLogJson)
| DetailNotFound.                                   (* 404 *)

Inductive SealResponse :=
| SealOk
| SealError (err : Error).                          (* 500 *)

Record Stats := mkStats {
  total    : Z;
  active   : nat;
  sealed   : nat;
  disputed : nat
}.

Inductive StatsResponse :=
| StatsOk (stats : Stats)
| StatsError (err : Failure).                       (* 500 *)

(** The handler of [POST /api/evidence/verify], given the hash of the file
    that was sent. *)
Definition verifyRoute (hash : string) (s : Storage) : VerifyResponse :=
  match verifyEvidence hash s with
  | inl e => VerifyError e
  | inr (isValid, evidenceId, _, _) =>
      if negb isValid then VerifyInvalid hash
      else
        match getEvidenceByHash hash s with
        | inl e => VerifyError e
        | inr evidence =>
            match getAuditLogs evidenceId s with
            | inl e => VerifyError e
            | inr auditLogs => VerifyValid hash evidence auditLogs
            end
        end
  end.

(** The handler of [GET /api/evidence/all]. *)
Definition allRoute (s : Storage) : AllResponse :=
  match getAllEvidenceIds s with
  | inl e => AllError e
  | inr ids =>
      match all (fun id => then_ (getEvidence id s) (fun e => (e, id))) ids with
      | inl e => AllError e
      | inr evidence => AllOk (length evidence) (rev evidence)
      end
  end.

(** The handler of [GET /api/evidence/:evidenceId], given a well-formed
    identifier. *)
Definition detailRoute (evidenceId : Z) (s : Storage) : DetailResponse :=
  match getEvidence evidenceId s with
  | inl _ => DetailNotFound
  | inr evidence =>
      match getAuditLogs evidenceId s with
      | inl _ => DetailNotFound
      | inr auditLogs => DetailOk evidence auditLogs
      end
  end.

(** The handler of [GET /api/evidence/stats/overview]. *)
Definition statsRoute (s : Storage) : StatsResponse :=
  match getEvidenceCount s with
  | inl e => StatsError e
  | inr count =>
      match getAllEvidenceIds s with
      | inl e => StatsError e
      | inr ids =>
          match all (fun id => getEvidence id s) ids with
          | inl e => StatsError e
          | inr evidence =>
              StatsOk
                (mkStats count
                   (length (filter (fun e => j_status e = "Active"%string) evidence))
                   (length (filter (fun e => j_isSealed e = true) evidence))
                   (length (filter (fun e => j_status e = "Disputed"%string) evidence)))
          end
      end
  end.

Section Seal.

Variable deployerAccount : Z.
Variable accounts : list Z.

(** [blockchain.sealEvidence]: the identifier is checked to be a [bytes32],
    then as in [blockchain.addEvidence] the gas estimate, which needs a
    well-formed sender and meets the failure of the contract, and the
    transaction, which needs a sender somebody signs for, mined at [time]
    in block [number]. *)
Definition sealEvidence (time number : Z) (evidenceId : Z)
    (fromAddress : option Z) (s : Storage) : (Error + list Event) * Storage :=
  let from := default deployerAccount fromAddress in
  let tx := sealEvidence (mkContext from time number) evidenceId in
  if negb (isUint256 evidenceId) then (inl InvalidArgument, s)
  else if negb (isAddress from) then (inl InvalidArgument, s)
  else
    match (call tx s).1 with
    | inl e => (inl (Reverted e), s)
    | inr _ =>
        if negb (signs deployerAccount accounts from)
        then (inl UnknownAccount, s)
        else
          match call tx s with
          | (inl e, s') => (inl (Reverted e), s')
          | (inr (_, evs), s') => (inr evs, s')
          end
    end.

(** The handler of [POST /api/evidence/:evidenceId/seal]; the identifier
    and the address are given as the integers their text denotes. *)
Definition sealRoute (time number : Z) (evidenceId : Z)
    (fromAddress : option Z) (s : Storage) : SealResponse * Storage :=
  match sealEvidence time number evidenceId fromAddress s with
  | (inl e, s') => (SealError e, s')
  | (inr _, s') => (SealOk, s')
  end.

End Seal.

End Backend.

(** ** The dashboard *)

Module Frontend.

(** [(evidenceData || []).slice(0, 5)] of [Dashboard.jsx], on the list the
    listing route sent ([None] while it is not loaded). *)
Definition recent {A} (evidenceData : option (list A)) : list A :=
  take 5 (default [] evidenceData).

End Frontend.

(** ** A digest to run examples with

    A checksum standing in for the chain's digest where an example needs to
    evaluate a registration; no statement below is about it. *)
Definition sample_digest (bs : list byte) : Z :=
  fold_left (fun acc b => (acc * 257 + Z.of_N (Byte.to_N b) + 1) mod 2 ^ 256) bs 7.

(** ** A scenario

    The owner deploys the contract; alice registers a report and seals it;
    bob looks on. *)
Module Scenario.

Definition deployment : Context := mkContext 1 1700000000 1.
Definition alice (time number : Z) : Context := mkContext 2001 time number.
Definition bob (time number : Z) : Context := mkContext 3002 time number.
Definition the_owner (time number : Z) : Context := mkContext 1 time number.

Definition report : Call :=
  CallAddEvidence "a1f0" "" "report.pdf" "application/pdf" 52133 "" "CASE-1".
Definition photo : Call :=
  CallAddEvidence "b2e9" "" "photo.png" "image/png" 904 "" "CASE-1".

(** The identifier of the report. *)
Definition X : Z := deriveId sample_digest (alice 1700000100 7) "a1f0".

Definition registration : list (Context * Call) :=
  [(alice 1700000100 7, report)].

Definition registration_and_seal : list (Context * Call) :=
  [(alice 1700000100 7, report); (alice 1700000200 8, CallSealEvidence X)].

Definition after_the_seal : list (Context * Call) :=
  [(alice 1700000300 9, CallUpdateStatus X Disputed "x");
   (bob 1700000400 10, CallLogAudit X "NOTE" "reviewed");
   (bob 1700000500 11, photo)].

(** The accounts of the node: the owner's, alice's and bob's. *)
Definition node_accounts : list Z := [1; 2001; 3002].

Definition resubmission : Backend.UploadRequest :=
  Backend.mkUploadRequest "a1f0" "copy.pdf" "application/pdf" 52133
    None None None None (Some "CASE-2"%string) (Some 3002) None.

End Scenario.

(** * Properties *)

Ltac tx_unfold :=
  unfold call, receipt, addEvidence, sealEvidence, updateStatus, logAudit,
    verifyEvidence, getEvidence, getEvidenceByHash, evidenceExists, notSealed,
    mbind, mret, Tx_bind, Tx_ret, bind, ret, require, sload, sstore, emit, panic;
  cbn [storage emitted fst snd].

Ltac storage_unfold :=
  unfold registered, pushAuditLog, setTotalEvidence, pushAllEvidenceIds,
    pushUploaderEvidence, setHashToId, setEvidence, recordExists, mayMutate,
    evidenceAt, logsAt, idsOf, idOfHash in *;
  cbn [evidenceStore auditLogs uploaderEvidence hashToId allEvidenceIds owner
       totalEvidence] in *.

Ltac unfold_exec := unfold exec.
Ltac unfold_body := unfold body.
Ltac run_step := cbn [run].

Section Properties.

Variable keccak256 : list byte -> Z.

#[local] Abbreviation addEvidence := (addEvidence keccak256).
#[local] Abbreviation deriveId := (deriveId keccak256).
#[local] Abbreviation body := (body keccak256).
#[local] Abbreviation exec := (exec keccak256).
#[local] Abbreviation run := (run keccak256).
#[local] Abbreviation collision_free := (collision_free keccak256).
#[local] Abbreviation digest_fresh := (digest_fresh keccak256).
#[local] Abbreviation registered := (registered keccak256).
#[local] Abbreviation collision_resistant_on := (collision_resistant_on keccak256).
#[local] Abbreviation provenance := (provenance keccak256).

(** ** The four transactions, case by case *)

Lemma call_sealEvidence c id s :
  call (sealEvidence c id) s =
    if recordExists s id then
      if isSealed (evidenceAt s id) then (inl (Revert IS_SEALED), s)
      else if mayMutate c s id then
        (inr (tt, [EvidenceSealed id (msg_sender c)]),
         pushAuditLog id (sealedEntry c)
           (setEvidence id (withSealed true (evidenceAt s id)) s))
      else (inl (Revert NOT_AUTHORIZED_TO_SEAL), s)
    else (inl (Revert NOT_FOUND), s).
Proof.
  tx_unfold.
  destruct (recordExists s id); cbn; [|done].
  destruct (isSealed (evidenceAt s id)); cbn; [done|].
  destruct (mayMutate c s id); cbn; done.
Qed.

Lemma call_updateStatus c id st n s :
  call (updateStatus c id st n) s =
    if recordExists s id then
      if isSealed (evidenceAt s id) then (inl (Revert IS_SEALED), s)
      else if mayMutate c s id then
        (inr (tt, [EvidenceStatusUpdated id st (msg_sender c)]),
         pushAuditLog id (statusEntry c n)
           (setEvidence id (withStatus st (evidenceAt s id)) s))
      else (inl (Revert NOT_AUTHORIZED), s)
    else (inl (Revert NOT_FOUND), s).
Proof.
  tx_unfold.
  destruct (recordExists s id); cbn; [|done].
  destruct (isSealed (evidenceAt s id)); cbn; [done|].
  destruct (mayMutate c s id); cbn; done.
Qed.

Lemma call_logAudit c id a n s :
  call (logAudit c id a n) s =
    if recordExists s id then
      (inr (tt, [EvidenceAuditLogged id (msg_sender c) a]),
       pushAuditLog id (mkAuditLog (msg_sender c) a (block_timestamp c) n) s)
    else (inl (Revert NOT_FOUND), s).
Proof. tx_unfold. destruct (recordExists s id); cbn; done. Qed.

Lemma call_addEvidence c h i n t sz d cs s :
  call (addEvidence c h i n t sz d cs) s =
    if 0 <? bytesLength h then
      if 0 <? bytesLength n then
        if idOfHash s h =? 0 then
          if totalEvidence s <? max_uint256 then
            (inr (deriveId c h,
                  [EvidenceAdded (deriveId c h) h n cs (msg_sender c)
                                 (block_timestamp c)]),
             registered c h i n t sz d cs s)
          else (inl (Panic 17), s)
        else (inl (Revert ALREADY_EXISTS), s)
      else (inl (Revert FILE_NAME_REQUIRED), s)
    else (inl (Revert FILE_HASH_REQUIRED), s).
Proof.
  tx_unfold.
  destruct (0 <? bytesLength h); cbn; [|done].
  destruct (0 <? bytesLength n); cbn; [|done].
  destruct (idOfHash s h =? 0); cbn; [|done].
  destruct (totalEvidence s <? max_uint256); cbn; done.
Qed.

Lemma call_verifyEvidence h s :
  call (verifyEvidence h) s =
    (inr (if idOfHash s h =? 0 then (false, 0, 0, 0)
          else (true, idOfHash s h, uploader (evidenceAt s (idOfHash s h)),
                timestamp (evidenceAt s (idOfHash s h))), []), s).
Proof. tx_unfold. destruct (idOfHash s h =? 0); done. Qed.

Lemma call_getEvidence id s :
  call (getEvidence id) s =
    if recordExists s id then (inr (evidenceAt s id, []), s)
    else (inl (Revert NOT_FOUND), s).
Proof. tx_unfold. destruct (recordExists s id); done. Qed.

Lemma call_getEvidenceByHash h s :
  call (getEvidenceByHash h) s =
    if idOfHash s h =? 0 then (inl (Revert NOT_FOUND), s)
    else (inr (evidenceAt s (idOfHash s h), []), s).
Proof. tx_unfold. destruct (idOfHash s h =? 0); done. Qed.

(** ** The storage after one transaction *)

Lemma receipt_discard {A} (m : Tx A) s :
  receipt (call (m;; mret tt) s) = receipt (call m s).
Proof.
  unfold receipt, call, mbind, mret, Tx_bind, Tx_ret, bind, ret.
  by destruct (m (mkMachine s [])) as [[e|a] m'].
Qed.

Lemma exec_storage c op s :
  (exec c op s).2 =
    match op with
    | CallAddEvidence h i n t sz d cs =>
        if addEvidence_ok h n s then registered c h i n t sz d cs s else s
    | CallSealEvidence id =>
        if mutation_ok c id s
        then pushAuditLog id (sealedEntry c)
               (setEvidence id (withSealed true (evidenceAt s id)) s)
        else s
    | CallUpdateStatus id st n =>
        if mutation_ok c id s
        then pushAuditLog id (statusEntry c n)
               (setEvidence id (withStatus st (evidenceAt s id)) s)
        else s
    | CallLogAudit id a n =>
        if recordExists s id
        then pushAuditLog id (mkAuditLog (msg_sender c) a (block_timestamp c) n) s
        else s
    end.
Proof.
  destruct op as [h i n t sz d cs|id|id st n|id a n];
    unfold_exec; unfold_body; unfold addEvidence_ok, mutation_ok.
  - rewrite receipt_discard, call_addEvidence.
    destruct (0 <? bytesLength h), (0 <? bytesLength n), (idOfHash s h =? 0),
      (totalEvidence s <? max_uint256); done.
  - rewrite call_sealEvidence.
    destruct (recordExists s id), (isSealed (evidenceAt s id)),
      (mayMutate c s id); done.
  - rewrite call_updateStatus.
    destruct (recordExists s id), (isSealed (evidenceAt s id)),
      (mayMutate c s id); done.
  - rewrite call_logAudit. destruct (recordExists s id); done.
Qed.

Lemma bytesLength_pos str : (0 <? bytesLength str) = true <-> str <> "".
Proof.
  unfold bytesLength. rewrite Z.ltb_lt.
  destruct str; cbn [String.length]; split; intros; try done; lia.
Qed.

(** ** Reading the storage after a write *)

Lemma evidenceAt_setEvidence id e s id' :
  evidenceAt (setEvidence id e s) id' =
    if decide (id = id') then e else evidenceAt s id'.
Proof. storage_unfold. rewrite lookup_insert. by case_decide. Qed.

Lemma evidenceAt_pushAuditLog id l s id' :
  evidenceAt (pushAuditLog id l s) id' = evidenceAt s id'.
Proof. done. Qed.

Lemma logsAt_pushAuditLog id l s id' :
  logsAt (pushAuditLog id l s) id' =
    if decide (id = id') then logsAt s id' ++ [l] else logsAt s id'.
Proof. storage_unfold. rewrite lookup_insert. by case_decide; subst. Qed.

Lemma logsAt_setEvidence id e s id' :
  logsAt (setEvidence id e s) id' = logsAt s id'.
Proof. done. Qed.

Lemma evidenceAt_registered c h i n t sz d cs s id' :
  evidenceAt (registered c h i n t sz d cs s) id' =
    if decide (deriveId c h = id')
    then mkEvidence h i n t sz d cs (block_timestamp c) (msg_sender c) false Active
    else evidenceAt s id'.
Proof.
  unfold registered, evidenceAt, logsAt, idsOf, idOfHash. cbn.
  rewrite lookup_insert. by case_decide. Qed.

Lemma logsAt_registered c h i n t sz d cs s id' :
  logsAt (registered c h i n t sz d cs s) id' =
    if decide (deriveId c h = id') then logsAt s id' ++ [creationEntry c]
    else logsAt s id'.
Proof.
  unfold registered, evidenceAt, logsAt, idsOf, idOfHash. cbn.
  rewrite lookup_insert. by case_decide; subst. Qed.

Lemma idOfHash_registered c h i n t sz d cs s h' :
  idOfHash (registered c h i n t sz d cs s) h' =
    if decide (h = h') then deriveId c h else idOfHash s h'.
Proof.
  unfold registered, evidenceAt, logsAt, idsOf, idOfHash. cbn.
  rewrite lookup_insert. by case_decide. Qed.

Lemma idsOf_registered c h i n t sz d cs s who :
  idsOf (registered c h i n t sz d cs s) who =
    if decide (msg_sender c = who) then idsOf s who ++ [deriveId c h]
    else idsOf s who.
Proof.
  unfold registered, evidenceAt, logsAt, idsOf, idOfHash. cbn.
  rewrite lookup_insert. by case_decide; subst. Qed.

(** ** What one transaction preserves *)

Lemma metadata_fileHash e e' : metadata e' = metadata e -> fileHash e' = fileHash e.
Proof. intros H. by apply (f_equal fileHash) in H. Qed.

Lemma addEvidence_ok_true h n s :
  addEvidence_ok h n s = true ->
  h <> "" /\ n <> "" /\ idOfHash s h = 0 /\ totalEvidence s < max_uint256.
Proof.
  unfold addEvidence_ok. rewrite !andb_true_iff, !bytesLength_pos.
  rewrite Z.eqb_eq, Z.ltb_lt. tauto.
Qed.

(** The audit trail of every record only ever grows at its end. *)
Lemma exec_logs_append c op s id :
  exists l, logsAt (exec c op s).2 id = logsAt s id ++ l.
Proof.
  assert (Hsame : exists l, logsAt s id = logsAt s id ++ l).
  { exists []. by rewrite app_nil_r. }
  rewrite exec_storage.
  destruct op as [h i n t sz d cs|id'|id' st n|id' a n].
  - destruct (addEvidence_ok _ _ _); [|done].
    rewrite logsAt_registered. case_decide; [by eexists | done].
  - destruct (mutation_ok _ _ _); [|done].
    rewrite logsAt_pushAuditLog, logsAt_setEvidence.
    case_decide; [by eexists | done].
  - destruct (mutation_ok _ _ _); [|done].
    rewrite logsAt_pushAuditLog, logsAt_setEvidence.
    case_decide; [by eexists | done].
  - destruct (recordExists _ _); [|done].
    rewrite logsAt_pushAuditLog. case_decide; [by eexists | done].
Qed.

(** A transaction that runs into no digest collision leaves the metadata of
    every existing record as it is, and a sealed record as a whole. *)
Lemma exec_record_kept c op s id :
  digest_fresh c op s -> recordExists s id = true ->
  metadata (evidenceAt (exec c op s).2 id) = metadata (evidenceAt s id)
  /\ (isSealed (evidenceAt s id) = true ->
      evidenceAt (exec c op s).2 id = evidenceAt s id).
Proof.
  intros Hfresh Hex. rewrite exec_storage.
  destruct op as [h i n t sz d cs|id'|id' st n|id' a n].
  - destruct (addEvidence_ok _ _ _) eqn:Hok; [|done].
    rewrite evidenceAt_registered. specialize (Hfresh Hok).
    case_decide; [congruence | done].
  - unfold mutation_ok. destruct (recordExists s id'); [|done].
    destruct (isSealed (evidenceAt s id')) eqn:Hs; [done|].
    destruct (mayMutate c s id'); [|done]. cbn.
    rewrite evidenceAt_pushAuditLog, evidenceAt_setEvidence.
    case_decide; [subst | done]. split; [done | congruence].
  - unfold mutation_ok. destruct (recordExists s id'); [|done].
    destruct (isSealed (evidenceAt s id')) eqn:Hs; [done|].
    destruct (mayMutate c s id'); [|done]. cbn.
    rewrite evidenceAt_pushAuditLog, evidenceAt_setEvidence.
    case_decide; [subst | done]. split; [done | congruence].
  - by destruct (recordExists s id').
Qed.

Lemma exec_recordExists c op s id :
  digest_fresh c op s -> recordExists s id = true ->
  recordExists (exec c op s).2 id = true.
Proof.
  intros Hfresh Hex. destruct (exec_record_kept c op s id Hfresh Hex) as [Hm _].
  unfold recordExists in *. by rewrite (metadata_fileHash _ _ Hm).
Qed.

(** An entry of the hash index is written once. *)
Lemma exec_idOfHash_kept c op s h :
  idOfHash s h <> 0 -> idOfHash (exec c op s).2 h = idOfHash s h.
Proof.
  intros Hh. rewrite exec_storage.
  destruct op as [h' i n t sz d cs|id'|id' st n|id' a n].
  - destruct (addEvidence_ok _ _ _) eqn:Hok; [|done].
    apply addEvidence_ok_true in Hok as (_ & _ & Hz & _).
    rewrite idOfHash_registered. case_decide; [congruence | done].
  - by destruct (mutation_ok _ _ _).
  - by destruct (mutation_ok _ _ _).
  - by destruct (recordExists _ _).
Qed.

(** Only a registration of [h] writes the entry of [h]. *)
Lemma exec_idOfHash_zero c op s h :
  registers h op = false -> idOfHash s h = 0 -> idOfHash (exec c op s).2 h = 0.
Proof.
  intros Hop Hh. rewrite exec_storage.
  destruct op as [h' i n t sz d cs|id'|id' st n|id' a n].
  - destruct (addEvidence_ok _ _ _); [|done].
    rewrite idOfHash_registered. cbn in Hop.
    case_decide; [by rewrite bool_decide_eq_false in Hop | done].
  - by destruct (mutation_ok _ _ _).
  - by destruct (mutation_ok _ _ _).
  - by destruct (recordExists _ _).
Qed.

(** ** Two invariants of the storage *)

Lemma index_consistent_exists s h :
  index_consistent s -> idOfHash s h <> 0 ->
  recordExists s (idOfHash s h) = true.
Proof.
  intros Hinv Hh. destruct (Hinv h Hh) as [Hf Hne].
  unfold recordExists. rewrite Hf. by apply bytesLength_pos.
Qed.

Lemma exec_index_consistent c op s :
  digest_fresh c op s -> index_consistent s ->
  index_consistent (exec c op s).2.
Proof.
  intros Hfresh Hinv h Hh.
  destruct (decide (idOfHash s h = 0)) as [Hz|Hnz].
  - (* the entry is new: the transaction registered [h] *)
    revert Hh. rewrite exec_storage.
    destruct op as [h' i n t sz d cs|id'|id' st n|id' a n].
    + destruct (addEvidence_ok _ _ _) eqn:Hok; [|done].
      apply addEvidence_ok_true in Hok as (Hne & _).
      rewrite idOfHash_registered. case_decide; [subst h'|done].
      intros _. rewrite evidenceAt_registered. by rewrite decide_True.
    + by destruct (mutation_ok _ _ _).
    + by destruct (mutation_ok _ _ _).
    + by destruct (recordExists _ _).
  - rewrite (exec_idOfHash_kept c op s h Hnz).
    destruct (Hinv h Hnz) as [Hf Hne]. split; [|done].
    pose proof (index_consistent_exists s h Hinv Hnz) as Hex.
    destruct (exec_record_kept c op s _ Hfresh Hex) as [Hm _].
    by rewrite (metadata_fileHash _ _ Hm).
Qed.

Lemma exec_blank_slots c op s :
  blank_slots s -> blank_slots (exec c op s).2.
Proof.
  intros Hinv id. rewrite exec_storage.
  destruct op as [h i n t sz d cs|id'|id' st n|id' a n].
  - destruct (addEvidence_ok _ _ _) eqn:Hok; [|apply Hinv].
    apply addEvidence_ok_true in Hok as (Hne & _). apply bytesLength_pos in Hne.
    unfold recordExists. rewrite evidenceAt_registered, logsAt_registered.
    case_decide; [cbn [fileHash]; congruence | apply Hinv].
  - unfold mutation_ok. destruct (recordExists s id') eqn:Hex; [|apply Hinv].
    destruct (isSealed (evidenceAt s id')), (mayMutate c s id');
      cbn [negb andb]; try apply Hinv.
    unfold recordExists in *.
    rewrite evidenceAt_pushAuditLog, evidenceAt_setEvidence, logsAt_pushAuditLog,
      logsAt_setEvidence.
    case_decide; [subst; cbn [withSealed fileHash]; congruence | apply Hinv].
  - unfold mutation_ok. destruct (recordExists s id') eqn:Hex; [|apply Hinv].
    destruct (isSealed (evidenceAt s id')), (mayMutate c s id');
      cbn [negb andb]; try apply Hinv.
    unfold recordExists in *.
    rewrite evidenceAt_pushAuditLog, evidenceAt_setEvidence, logsAt_pushAuditLog,
      logsAt_setEvidence.
    case_decide; [subst; cbn [withStatus fileHash]; congruence | apply Hinv].
  - destruct (recordExists s id') eqn:Hex; [|apply Hinv].
    unfold recordExists in *.
    rewrite evidenceAt_pushAuditLog, logsAt_pushAuditLog.
    case_decide; [subst; congruence | apply Hinv].
Qed.

(** ** Sequences of transactions *)

Lemma run_logs_append s t id :
  exists l, logsAt (run s t) id = logsAt s id ++ l.
Proof.
  revert s. induction t as [|[c op] t IH]; intros s; run_step.
  - exists []. by rewrite app_nil_r.
  - destruct (IH (exec c op s).2) as [l2 ->].
    destruct (exec_logs_append c op s id) as [l1 ->].
    exists (l1 ++ l2). by rewrite app_assoc.
Qed.

Lemma run_record_kept s t id :
  collision_free s t -> recordExists s id = true ->
  recordExists (run s t) id = true
  /\ metadata (evidenceAt (run s t) id) = metadata (evidenceAt s id)
  /\ (isSealed (evidenceAt s id) = true ->
      evidenceAt (run s t) id = evidenceAt s id).
Proof.
  revert s. induction t as [|[c op] t IH]; intros s Hcf Hex; [done|].
  destruct Hcf as [Hfresh Hcf]. run_step.
  destruct (exec_record_kept c op s id Hfresh Hex) as [Hm Hs].
  pose proof (exec_recordExists c op s id Hfresh Hex) as Hex'.
  destruct (IH _ Hcf Hex') as (Hex'' & Hm' & Hs').
  split; [done|]. split; [congruence|].
  intros Hsealed. rewrite <- (Hs Hsealed). apply Hs'. by rewrite (Hs Hsealed).
Qed.

Lemma run_idOfHash_kept s t h :
  idOfHash s h <> 0 -> idOfHash (run s t) h = idOfHash s h.
Proof.
  revert s. induction t as [|[c op] t IH]; intros s Hh; [done|].
  run_step. rewrite IH; rewrite exec_idOfHash_kept; done.
Qed.

Lemma run_idOfHash_zero s t h :
  forallb (fun x => negb (registers h x.2)) t = true ->
  idOfHash s h = 0 -> idOfHash (run s t) h = 0.
Proof.
  revert s. induction t as [|[c op] t IH]; intros s Ht Hh; [done|].
  cbn in Ht. apply andb_true_iff in Ht as [Hop Ht].
  apply negb_true_iff in Hop. run_step.
  apply IH; [done|]. by apply exec_idOfHash_zero.
Qed.

Lemma run_index_consistent s t :
  collision_free s t -> index_consistent s -> index_consistent (run s t).
Proof.
  revert s. induction t as [|[c op] t IH]; intros s Hcf Hinv; [done|].
  destruct Hcf as [Hfresh Hcf]. run_step.
  apply IH; [done|]. by apply exec_index_consistent.
Qed.

Lemma run_blank_slots s t : blank_slots s -> blank_slots (run s t).
Proof.
  revert s. induction t as [|[c op] t IH]; intros s Hinv; [done|].
  run_step. by apply IH, exec_blank_slots.
Qed.

Lemma constructor_index_consistent c : index_consistent (constructor c).
Proof. intros h Hh. by contradict Hh. Qed.

Lemma constructor_blank_slots c : blank_slots (constructor c).
Proof. by intros id _. Qed.

(** ** Sealing *)

Lemma mayMutate_spec c s id :
  mayMutate c s id = true <->
  msg_sender c = uploader (evidenceAt s id) \/ msg_sender c = owner s.
Proof. unfold mayMutate. rewrite orb_true_iff, !Z.eqb_eq. tauto. Qed.

(** C4. [sealEvidence] succeeds exactly when the record exists, is not
    sealed yet and the sender is its uploader or the owner of the contract.
    It then sets [isSealed], leaving every other field of the record, every
    other record and every index as they are, and appends one
    [EVIDENCE_SEALED] entry to the audit trail of the record. Otherwise it
    fails with "Evidence not found", "Evidence is sealed" or "Not authorized
    to seal", in this order of precedence, and the storage is as before. *)
Theorem C4_sealEvidence c id s :
  let s' := pushAuditLog id (sealedEntry c)
              (setEvidence id (withSealed true (evidenceAt s id)) s) in
  call (sealEvidence c id) s =
    (if negb (recordExists s id) then (inl (Revert NOT_FOUND), s)
     else if isSealed (evidenceAt s id) then (inl (Revert IS_SEALED), s)
     else if negb (mayMutate c s id) then (inl (Revert NOT_AUTHORIZED_TO_SEAL), s)
     else (inr (tt, [EvidenceSealed id (msg_sender c)]), s'))
  /\ (is_inr (call (sealEvidence c id) s).1 = true <->
      fileHash (evidenceAt s id) <> ""
      /\ isSealed (evidenceAt s id) = false
      /\ (msg_sender c = uploader (evidenceAt s id) \/ msg_sender c = owner s))
  /\ evidenceAt s' id = withSealed true (evidenceAt s id)
  /\ isSealed (evidenceAt s' id) = true
  /\ logsAt s' id = logsAt s id ++ [sealedEntry c]
  /\ (forall id', id' <> id ->
        evidenceAt s' id' = evidenceAt s id' /\ logsAt s' id' = logsAt s id')
  /\ hashToId s' = hashToId s
  /\ uploaderEvidence s' = uploaderEvidence s
  /\ allEvidenceIds s' = allEvidenceIds s
  /\ owner s' = owner s
  /\ totalEvidence s' = totalEvidence s.
Proof.
  intros s'. split.
  { rewrite call_sealEvidence.
    by destruct (recordExists s id), (isSealed (evidenceAt s id)),
      (mayMutate c s id). }
  split.
  { rewrite call_sealEvidence, <- mayMutate_spec.
    unfold recordExists. rewrite <- bytesLength_pos.
    destruct (0 <? bytesLength (fileHash (evidenceAt s id))),
      (isSealed (evidenceAt s id)), (mayMutate c s id); cbn;
      intuition congruence. }
  subst s'.
  rewrite evidenceAt_pushAuditLog, evidenceAt_setEvidence, logsAt_pushAuditLog,
    logsAt_setEvidence, !decide_True by done.
  repeat split; try done.
  - rewrite evidenceAt_pushAuditLog, evidenceAt_setEvidence. by rewrite decide_False.
  - rewrite logsAt_pushAuditLog, logsAt_setEvidence. by rewrite decide_False.
Qed.

(** ** Audit entries *)

(** C5. [logAudit] succeeds on every existing record, whatever its
    [isSealed] flag and whoever the sender is: it appends one entry with the
    sender, the action and the notes at the end of the audit trail of the
    record, so it still succeeds on a record that was just sealed. It fails
    only with "Evidence not found", when no record is stored under the
    identifier, and it leaves the record store as it is. *)
Theorem C5_logAudit c id a n s :
  let entry := mkAuditLog (msg_sender c) a (block_timestamp c) n in
  let s' := pushAuditLog id entry s in
  call (logAudit c id a n) s =
    (if recordExists s id
     then (inr (tt, [EvidenceAuditLogged id (msg_sender c) a]), s')
     else (inl (Revert NOT_FOUND), s))
  /\ logsAt s' id = logsAt s id ++ [entry]
  /\ (forall id', id' <> id -> logsAt s' id' = logsAt s id')
  /\ evidenceStore s' = evidenceStore s
  /\ hashToId s' = hashToId s
  /\ uploaderEvidence s' = uploaderEvidence s
  /\ allEvidenceIds s' = allEvidenceIds s
  /\ owner s' = owner s
  /\ totalEvidence s' = totalEvidence s
  /\ (forall c0,
        recordExists s id = true ->
        isSealed (evidenceAt s id) = false ->
        mayMutate c0 s id = true ->
        let sealed := (call (sealEvidence c0 id) s).2 in
        isSealed (evidenceAt sealed id) = true
        /\ (call (logAudit c id a n) sealed).1
           = inr (tt, [EvidenceAuditLogged id (msg_sender c) a])
        /\ logsAt (call (logAudit c id a n) sealed).2 id
           = logsAt s id ++ [sealedEntry c0; entry]).
Proof.
  intros entry s'. split; [apply call_logAudit|]. subst s'.
  rewrite logsAt_pushAuditLog, decide_True by done.
  split; [done|].
  split; [intros id' Hne; rewrite logsAt_pushAuditLog; by rewrite decide_False|].
  do 6 (split; [done|]).
  intros c0 Hex Hs Hm sealed. subst sealed.
  rewrite call_sealEvidence, Hex, Hs, Hm. cbn [snd].
  rewrite !call_logAudit.
  assert (Hex' : recordExists
            (pushAuditLog id (sealedEntry c0)
               (setEvidence id (withSealed true (evidenceAt s id)) s)) id = true).
  { unfold recordExists in *.
    by rewrite evidenceAt_pushAuditLog, evidenceAt_setEvidence, decide_True. }
  rewrite Hex'. cbn [fst snd].
  rewrite evidenceAt_pushAuditLog, evidenceAt_setEvidence, decide_True by done.
  rewrite !logsAt_pushAuditLog, logsAt_setEvidence, !decide_True by done.
  by rewrite <- app_assoc.
Qed.

(** ** Status updates *)

Lemma foldl_last {A B} (f : B -> A) (a : A) (l : list B) :
  foldl (fun _ u => f u) a l = default a (last (map f l)).
Proof.
  revert a. induction l as [|u l IH]; intros a; [done|].
  cbn [foldl map]. rewrite IH. destruct l as [|v l]; [done|].
  cbn [map]. rewrite !last_cons. by destruct (last (map f l)).
Qed.

Lemma run_statusUpdates s id us :
  recordExists s id = true ->
  isSealed (evidenceAt s id) = false ->
  Forall (fun u => mayMutate u.1.1 s id = true) us ->
  let s' := run s (statusUpdates id us) in
  evidenceAt s' id
    = withStatus (foldl (fun _ u => u.1.2) (status (evidenceAt s id)) us)
                 (evidenceAt s id)
  /\ logsAt s' id = logsAt s id ++ map (fun u => statusEntry u.1.1 u.2) us
  /\ owner s' = owner s.
Proof.
  revert s. induction us as [|[[c st] n] us IH]; intros s Hex Hs Hall; cbn zeta.
  - cbn. rewrite app_nil_r. by destruct (evidenceAt s id).
  - apply Forall_cons in Hall as [Hm Hall]. cbn [fst snd] in Hm.
    cbn [statusUpdates map fst snd foldl]. run_step.
    rewrite exec_storage. unfold mutation_ok. rewrite Hex, Hs, Hm. cbn [negb andb].
    set (s1 := pushAuditLog id (statusEntry c n)
                 (setEvidence id (withStatus st (evidenceAt s id)) s)).
    assert (He1 : evidenceAt s1 id = withStatus st (evidenceAt s id)).
    { subst s1. rewrite evidenceAt_pushAuditLog, evidenceAt_setEvidence.
      by rewrite decide_True. }
    assert (Hl1 : logsAt s1 id = logsAt s id ++ [statusEntry c n]).
    { subst s1. rewrite logsAt_pushAuditLog, logsAt_setEvidence.
      by rewrite decide_True. }
    destruct (IH s1) as (He & Hl & Ho).
    + unfold recordExists in *. by rewrite He1.
    + by rewrite He1.
    + eapply Forall_impl; [exact Hall|]. intros u Hu.
      unfold mayMutate in *. by rewrite He1.
    + fold (statusUpdates id us). rewrite He, Hl, Ho, He1, Hl1.
      split; [done|]. split; [|done]. by rewrite <- app_assoc.
Qed.

(** C6. While a record is not sealed, [updateStatus] sent by its uploader
    or by the owner sets any of the four status values, in any order and any
    number of times: every call of the sequence succeeds, overwrites the
    status (so the status of the record is the one sent last, and no other
    field changes) and appends one [STATUS_UPDATED] entry with its sender,
    time and notes; the record stays unsealed, so a further update succeeds
    as well, with whatever status: the status of the record is then the one
    it sent, and the audit trail is one entry longer. *)
Theorem C6_updateStatus_any_order s id us :
  recordExists s id = true ->
  isSealed (evidenceAt s id) = false ->
  Forall (fun u => msg_sender u.1.1 = uploader (evidenceAt s id)
                   \/ msg_sender u.1.1 = owner s) us ->
  let s' := run s (statusUpdates id us) in
  let e := evidenceAt s id in
  status (evidenceAt s' id) = default (status e) (last (map (fun u => u.1.2) us))
  /\ evidenceAt s' id
     = mkEvidence (fileHash e) (ipfsHash e) (fileName e) (fileType e)
         (fileSize e) (description e) (caseId e) (timestamp e) (uploader e)
         false (default (status e) (last (map (fun u => u.1.2) us)))
  /\ logsAt s' id
     = logsAt s id
       ++ map (fun u => mkAuditLog (msg_sender u.1.1) "STATUS_UPDATED"
                                   (block_timestamp u.1.1) u.2) us
  /\ forall c st n,
       msg_sender c = uploader e \/ msg_sender c = owner s ->
       let s'' := pushAuditLog id (statusEntry c n)
                    (setEvidence id (withStatus st (evidenceAt s' id)) s') in
       call (updateStatus c id st n) s'
       = (inr (tt, [EvidenceStatusUpdated id st (msg_sender c)]), s'')
       /\ status (evidenceAt s'' id) = st
       /\ evidenceAt s'' id
          = mkEvidence (fileHash e) (ipfsHash e) (fileName e) (fileType e)
              (fileSize e) (description e) (caseId e) (timestamp e)
              (uploader e) false st
       /\ logsAt s'' id
          = logsAt s' id ++ [mkAuditLog (msg_sender c) "STATUS_UPDATED"
                                        (block_timestamp c) n].
Proof.
  intros Hex Hs Hall s' e.
  destruct (run_statusUpdates s id us Hex Hs) as (He & Hl & Ho).
  { eapply Forall_impl; [exact Hall|]. intros u Hu. by apply mayMutate_spec. }
  fold s' e in He, Hl, Ho. rewrite foldl_last in He.
  assert (He' : evidenceAt s' id
     = mkEvidence (fileHash e) (ipfsHash e) (fileName e) (fileType e)
         (fileSize e) (description e) (caseId e) (timestamp e) (uploader e)
         false (default (status e) (last (map (fun u => u.1.2) us)))).
  { rewrite He. fold e in Hs. revert Hs. destruct e. cbn. by intros ->. }
  split; [by rewrite He'|]. split; [done|]. split; [done|].
  intros c st n Hc s''. split; [|split; [|split]].
  - subst s''. rewrite call_updateStatus. unfold recordExists, mayMutate in *.
    rewrite He', Ho. cbn [fileHash isSealed uploader]. fold e in Hex.
    rewrite Hex. apply mayMutate_spec in Hc. unfold mayMutate in Hc.
    fold e in Hc. by rewrite Hc.
  - subst s''. rewrite evidenceAt_pushAuditLog, evidenceAt_setEvidence.
    by rewrite decide_True, He'.
  - subst s''. rewrite evidenceAt_pushAuditLog, evidenceAt_setEvidence.
    by rewrite decide_True, He'.
  - subst s''. rewrite logsAt_pushAuditLog, logsAt_setEvidence.
    by rewrite decide_True.
Qed.

(** ** The seal is final *)

(** C1. In every state the contract can reach, a record whose [isSealed]
    flag is set keeps it, and its status and every other field, through every
    later sequence of calls to the state-changing functions ([addEvidence],
    [sealEvidence], [updateStatus], [logAudit]; there is no other), and
    every later [updateStatus] of it fails with "Evidence is sealed" and
    changes nothing. The later registrations are taken not to run into a
    collision of the digest. *)
Theorem C1_sealed_is_final c0 t0 t id :
  let s := run (constructor c0) t0 in
  isSealed (evidenceAt s id) = true ->
  collision_free s t ->
  let s' := run s t in
  evidenceAt s' id = evidenceAt s id
  /\ isSealed (evidenceAt s' id) = true
  /\ status (evidenceAt s' id) = status (evidenceAt s id)
  /\ forall c st n,
       call (updateStatus c id st n) s' = (inl (Revert IS_SEALED), s').
Proof.
  intros s Hsealed Hcf s'.
  assert (Hex : recordExists s id = true).
  { destruct (recordExists s id) eqn:Hex; [done|].
    pose proof (run_blank_slots _ t0 (constructor_blank_slots c0) id Hex) as [_ Hb].
    fold s in Hb. congruence. }
  destruct (run_record_kept s t id Hcf Hex) as (Hex' & _ & Hkept).
  specialize (Hkept Hsealed). fold s' in Hex', Hkept.
  split; [done|]. split; [congruence|]. split; [congruence|].
  intros c st n. rewrite call_updateStatus, Hex', Hkept, Hsealed. done.
Qed.

(** ** The hash index *)

(** C10. In every state reached without a collision of the digest, a hash
    that the index maps to an identifier is not empty and is the hash stored
    in the record under that identifier, which exists; so [getEvidenceByHash]
    and [verifyEvidence] answer with that record. *)
Theorem C10_hash_index_consistent c0 t h :
  collision_free (constructor c0) t ->
  let s := run (constructor c0) t in
  idOfHash s h <> 0 ->
  let e := evidenceAt s (idOfHash s h) in
  recordExists s (idOfHash s h) = true
  /\ fileHash e = h
  /\ h <> ""
  /\ call (getEvidenceByHash h) s = (inr (e, []), s)
  /\ call (verifyEvidence h) s
     = (inr ((true, idOfHash s h, uploader e, timestamp e), []), s).
Proof.
  intros Hcf s Hh e.
  pose proof (run_index_consistent _ t Hcf (constructor_index_consistent c0))
    as Hinv. fold s in Hinv.
  destruct (Hinv h Hh) as [Hf Hne].
  split; [by apply index_consistent_exists|]. split; [done|]. split; [done|].
  rewrite call_getEvidenceByHash, call_verifyEvidence.
  apply Z.eqb_neq in Hh. by rewrite Hh.
Qed.

(** ** Registration *)

Lemma addEvidence_ok_intro h n s :
  h <> "" -> n <> "" -> idOfHash s h = 0 -> totalEvidence s < max_uint256 ->
  addEvidence_ok h n s = true.
Proof.
  intros Hh Hn Hz Ht. unfold addEvidence_ok.
  rewrite !andb_true_iff, !bytesLength_pos, Z.eqb_eq, Z.ltb_lt. tauto.
Qed.

Lemma call_addEvidence_ok c h i n t sz d cs s :
  addEvidence_ok h n s = true ->
  call (addEvidence c h i n t sz d cs) s =
    (inr (deriveId c h,
          [EvidenceAdded (deriveId c h) h n cs (msg_sender c) (block_timestamp c)]),
     registered c h i n t sz d cs s).
Proof.
  unfold addEvidence_ok. rewrite !andb_true_iff. intros [[[Hh Hn] Hz] Ht].
  by rewrite call_addEvidence, Hh, Hn, Hz, Ht.
Qed.

Lemma call_addEvidence_inv c h i n t sz d cs s id evs s' :
  call (addEvidence c h i n t sz d cs) s = (inr (id, evs), s') ->
  addEvidence_ok h n s = true /\ id = deriveId c h
  /\ s' = registered c h i n t sz d cs s.
Proof.
  rewrite call_addEvidence. unfold addEvidence_ok.
  destruct (0 <? bytesLength h), (0 <? bytesLength n), (idOfHash s h =? 0),
    (totalEvidence s <? max_uint256); intros [= <- <- <-]; done.
Qed.

(** C3. In every state the contract can reach, [addEvidence] with a
    non-empty hash and name, a hash the index does not hold, a digest that
    runs into no existing record and a counter below its maximum succeeds. It
    stores one record under the derived identifier, [Active] and not sealed,
    with the given fields, the sender as uploader and the block time; no
    other record or audit trail changes. It maps the hash to the identifier,
    appends the identifier to the list of all identifiers and to the list of
    the sender, adds one to the counter, and leaves the creation entry as the
    only entry of the audit trail of the record, where it stays the first
    entry whatever calls follow. *)
Theorem C3_addEvidence_registers c0 t0 c h i n t sz d cs :
  let s := run (constructor c0) t0 in
  h <> "" -> n <> "" ->
  idOfHash s h = 0 ->
  recordExists s (deriveId c h) = false ->
  totalEvidence s < max_uint256 ->
  let id := deriveId c h in
  exists s',
    call (addEvidence c h i n t sz d cs) s
      = (inr (id, [EvidenceAdded id h n cs (msg_sender c) (block_timestamp c)]), s')
    /\ evidenceAt s' id
       = mkEvidence h i n t sz d cs (block_timestamp c) (msg_sender c) false Active
    /\ (forall id', id' <> id ->
          evidenceAt s' id' = evidenceAt s id' /\ logsAt s' id' = logsAt s id')
    /\ idOfHash s' h = id
    /\ (forall h', h' <> h -> idOfHash s' h' = idOfHash s h')
    /\ allEvidenceIds s' = allEvidenceIds s ++ [id]
    /\ idsOf s' (msg_sender c) = idsOf s (msg_sender c) ++ [id]
    /\ (forall who, who <> msg_sender c -> idsOf s' who = idsOf s who)
    /\ totalEvidence s' = totalEvidence s + 1
    /\ owner s' = owner s
    /\ logsAt s' id = [creationEntry c]
    /\ forall t', exists later, logsAt (run s' t') id = creationEntry c :: later.
Proof.
  intros s Hh Hn Hz Hfresh Htotal id. subst id.
  exists (registered c h i n t sz d cs s).
  split; [by apply call_addEvidence_ok, addEvidence_ok_intro|].
  assert (Hlogs : logsAt (registered c h i n t sz d cs s) (deriveId c h)
                  = [creationEntry c]).
  { rewrite logsAt_registered, decide_True by done.
    destruct (run_blank_slots _ t0 (constructor_blank_slots c0) _ Hfresh) as [Hl _].
    fold s in Hl. by rewrite Hl. }
  split; [by rewrite evidenceAt_registered, decide_True|].
  split.
  { intros id' Hne. rewrite evidenceAt_registered, logsAt_registered.
    by rewrite !decide_False. }
  split; [by rewrite idOfHash_registered, decide_True|].
  split; [intros h' Hne; by rewrite idOfHash_registered, decide_False|].
  split; [done|].
  split; [by rewrite idsOf_registered, decide_True|].
  split; [intros who Hne; by rewrite idsOf_registered, decide_False|].
  split; [done|]. split; [done|]. split; [done|].
  intros t'.
  destruct (run_logs_append (registered c h i n t sz d cs s) t' (deriveId c h))
    as [later Hl].
  exists later. by rewrite Hl, Hlogs.
Qed.

(** ** Verification *)

(** C7. [verifyEvidence] changes nothing and never fails: run as a call or
    as a bare function body it leaves the storage and the event log as they
    are, so a second call answers as the first. For a hash that no
    transaction since deployment registered it answers [false] with zero
    fields. Once [addEvidence] registered a hash under a non-zero
    identifier, it answers [true] with that identifier, the sender and the
    block time of the registration, whatever calls follow, as long as no
    later registration runs into a collision of the digest. *)
Theorem C7_verifyEvidence_is_a_lookup h s :
  (exists r,
      call (verifyEvidence h) s = (inr (r, []), s)
      /\ call (verifyEvidence h) (call (verifyEvidence h) s).2 = (inr (r, []), s))
  /\ (forall m, (verifyEvidence h m).2 = m)
  /\ (forall c0 t,
        forallb (fun x => negb (registers h x.2)) t = true ->
        call (verifyEvidence h) (run (constructor c0) t)
        = (inr ((false, 0, 0, 0), []), run (constructor c0) t))
  /\ (forall c i n ty sz d cs id evs s' t,
        call (addEvidence c h i n ty sz d cs) s = (inr (id, evs), s') ->
        id <> 0 ->
        collision_free s' t ->
        call (verifyEvidence h) (run s' t)
        = (inr ((true, id, msg_sender c, block_timestamp c), []), run s' t)).
Proof.
  split.
  { eexists. rewrite call_verifyEvidence. cbn [snd].
    by rewrite call_verifyEvidence. }
  split.
  { intros m. tx_unfold. by destruct (idOfHash (storage m) h =? 0). }
  split.
  { intros c0 t Ht. rewrite call_verifyEvidence.
    by rewrite (run_idOfHash_zero (constructor c0) t h Ht). }
  intros c i n ty sz d cs id evs s' t Hcall Hid Hcf.
  apply call_addEvidence_inv in Hcall as (Hok & -> & ->).
  apply addEvidence_ok_true in Hok as (Hh & _).
  set (s1 := registered c h i n ty sz d cs s) in *.
  assert (Hidx : idOfHash s1 h = deriveId c h).
  { subst s1. by rewrite idOfHash_registered, decide_True. }
  assert (He : evidenceAt s1 (deriveId c h)
               = mkEvidence h i n ty sz d cs (block_timestamp c) (msg_sender c)
                            false Active).
  { subst s1. by rewrite evidenceAt_registered, decide_True. }
  assert (Hex : recordExists s1 (deriveId c h) = true).
  { unfold recordExists. rewrite He. by apply bytesLength_pos. }
  destruct (run_record_kept s1 t _ Hcf Hex) as (_ & Hm & _).
  rewrite call_verifyEvidence, run_idOfHash_kept, Hidx by congruence.
  apply Z.eqb_neq in Hid. rewrite Hid.
  rewrite He in Hm.
  pose proof (f_equal uploader Hm) as Hu. pose proof (f_equal timestamp Hm) as Hts.
  cbn in Hu, Hts. by rewrite Hu, Hts.
Qed.

(** ** Duplicate submissions *)

(** C2. In every state reached without a collision of the digest, a
    registration of a hash that the index already holds fails and creates
    nothing. The upload handler of the service answers with a conflict that
    carries the identifier the index holds, under which the record with this
    hash is stored, and sends no transaction; [addEvidence] itself reverts
    with "Evidence with this hash already exists" (a missing file name is
    reported first). Either way the storage, hence every record, audit
    trail, list and the counter, is as before. *)
Theorem C2_duplicate_hash_rejected c0 t0 deployer accounts time number req :
  collision_free (constructor c0) t0 ->
  let s := run (constructor c0) t0 in
  let h := Backend.file_hash req in
  idOfHash s h <> 0 ->
  Backend.upload keccak256 deployer accounts time number req s
    = (Backend.Conflict (idOfHash s h), s)
  /\ recordExists s (idOfHash s h) = true
  /\ fileHash (evidenceAt s (idOfHash s h)) = h
  /\ forall c i n ty sz d cs,
       call (addEvidence c h i n ty sz d cs) s
       = (inl (Revert (if 0 <? bytesLength n then ALREADY_EXISTS
                       else FILE_NAME_REQUIRED)), s).
Proof.
  intros Hcf s h Hh.
  pose proof (run_index_consistent _ t0 Hcf (constructor_index_consistent c0))
    as Hinv. fold s in Hinv.
  destruct (Hinv h Hh) as [Hf Hne].
  pose proof Hh as Hnz. apply Z.eqb_neq in Hnz.
  split.
  { unfold Backend.upload, Backend.verifyEvidence.
    rewrite call_verifyEvidence. cbn [fst]. fold h. by rewrite Hnz. }
  split; [by apply index_consistent_exists|]. split; [done|].
  intros c i n ty sz d cs. rewrite call_addEvidence, Hnz.
  apply bytesLength_pos in Hne. rewrite Hne. by destruct (0 <? bytesLength n).
Qed.

(** ** Failed calls *)

(** The upload handler changes the storage only when it answers that the
    evidence was registered. *)
Lemma upload_failure_storage deployer accounts time number req s :
  match (Backend.upload keccak256 deployer accounts time number req s).1 with
  | Backend.Created _ _ => True
  | _ => (Backend.upload keccak256 deployer accounts time number req s).2 = s
  end.
Proof.
  unfold Backend.upload, Backend.verifyEvidence, Backend.addEvidence.
  rewrite call_verifyEvidence. cbn [fst].
  destruct (idOfHash s (Backend.file_hash req) =? 0); [|done]. cbn [negb].
  destruct (negb (Backend.isUint256 _)); [done|].
  destruct (negb (Backend.isAddress _)); [done|].
  match goal with |- context [call ?m s] =>
    destruct (call m s) as [[e|[a evs]] s']
  end; cbn [fst]; [done|].
  by destruct (negb (Backend.signs _ _ _)).
Qed.

(** C9. A call of [addEvidence], [sealEvidence], [updateStatus] or
    [logAudit] that fails leaves the whole storage as it was before the
    call, so the calls that follow run as if it had never been sent. When
    the failure is the revert of a [require], the function had not written
    anything yet: every check stands before the first write. The same holds
    one layer up: an upload that is not answered as registered left the
    storage as it was. *)
Theorem C9_failed_call_changes_nothing c op s f :
  (exec c op s).1 = inl f ->
  (exec c op s).2 = s
  /\ (forall t, run s ((c, op) :: t) = run s t)
  /\ (forall reason, f = Revert reason ->
        (body c op (mkMachine s [])).2 = mkMachine s [])
  /\ (forall deployer accounts time number req,
        match (Backend.upload keccak256 deployer accounts time number req s).1 with
        | Backend.Created _ _ => True
        | _ => (Backend.upload keccak256 deployer accounts time number req s).2 = s
        end).
Proof.
  intros Hfail.
  assert (Hsame : (exec c op s).2 = s).
  { revert Hfail. unfold_exec. unfold receipt, call.
    by destruct (body c op (mkMachine s [])) as [[e|a] m]. }
  split; [done|]. split; [intros t; run_step; by rewrite Hsame|].
  split; [|intros; apply upload_failure_storage].
  intros reason ->. revert Hfail. unfold_exec.
  destruct op as [h i n t sz d cs|id|id st n|id a n]; unfold_body.
  - tx_unfold.
    destruct (0 <? bytesLength h); cbn; [|done].
    destruct (0 <? bytesLength n); cbn; [|done].
    destruct (idOfHash s h =? 0); cbn; [|done].
    destruct (totalEvidence s <? max_uint256); cbn; done.
  - tx_unfold.
    destruct (recordExists s id); cbn; [|done].
    destruct (isSealed (evidenceAt s id)); cbn; [done|].
    destruct (mayMutate c s id); cbn; done.
  - tx_unfold.
    destruct (recordExists s id); cbn; [|done].
    destruct (isSealed (evidenceAt s id)); cbn; [done|].
    destruct (mayMutate c s id); cbn; done.
  - tx_unfold. destruct (recordExists s id); cbn; done.
Qed.

(** ** Identifiers *)

Lemma length_le_bytes n z : length (le_bytes n z) = n.
Proof. revert z. induction n as [|n IH]; intros z; cbn; by rewrite ?IH. Qed.

Lemma length_be_bytes n z : length (be_bytes n z) = n.
Proof. unfold be_bytes. by rewrite length_rev, length_le_bytes. Qed.

(** The packed encoding determines the hash: the three fields behind it
    have a fixed width. *)
Lemma encodePacked_hash_inj h1 a1 t1 n1 h2 a2 t2 n2 :
  encodePacked h1 a1 t1 n1 = encodePacked h2 a2 t2 n2 -> h1 = h2.
Proof.
  unfold encodePacked. intros H.
  apply app_inj_2 in H as [H _].
  - rewrite <- (String.string_of_list_byte_of_string h1),
      <- (String.string_of_list_byte_of_string h2). by rewrite H.
  - by rewrite !length_app, !length_be_bytes.
Qed.

(** Once a hash is registered under a non-zero identifier, every further
    registration of it reverts, whoever sends it and whenever. *)
Lemma registered_hash_is_refused c h i n t sz d cs s id evs s' c' i' n' t' sz' d' cs' :
  call (addEvidence c h i n t sz d cs) s = (inr (id, evs), s') ->
  id <> 0 -> n' <> "" ->
  call (addEvidence c' h i' n' t' sz' d' cs') s' = (inl (Revert ALREADY_EXISTS), s').
Proof.
  intros Hcall Hid Hn'.
  apply call_addEvidence_inv in Hcall as (Hok & -> & ->).
  apply addEvidence_ok_true in Hok as (Hh & _).
  rewrite call_addEvidence, idOfHash_registered, decide_True by done.
  apply bytesLength_pos in Hh, Hn'. apply Z.eqb_neq in Hid.
  by rewrite Hh, Hn', Hid.
Qed.


(** ** Collision resistance

    A sequence is collision free as soon as the digest is collision
    resistant on the packed inputs of its registrations. *)

Lemma exec_recordExists_inv c op s id :
  recordExists (exec c op s).2 id = true ->
  recordExists s id = true
  \/ exists h i n t sz d cs,
       op = CallAddEvidence h i n t sz d cs
       /\ addEvidence_ok h n s = true /\ id = deriveId c h.
Proof.
  rewrite exec_storage.
  destruct op as [h i n t sz d cs|id'|id' st n|id' a n].
  - destruct (addEvidence_ok _ _ _) eqn:Hok; [|by left].
    unfold recordExists. rewrite evidenceAt_registered.
    case_decide; [subst id; right; by eexists _, _, _, _, _, _, _ | by left].
  - destruct (mutation_ok _ _ _); [|by left].
    unfold recordExists. rewrite evidenceAt_pushAuditLog, evidenceAt_setEvidence.
    case_decide; [subst id'|]; by left.
  - destruct (mutation_ok _ _ _); [|by left].
    unfold recordExists. rewrite evidenceAt_pushAuditLog, evidenceAt_setEvidence.
    case_decide; [subst id'|]; by left.
  - destruct (recordExists s id'); by left.
Qed.

Lemma exec_provenance l c op s :
  collision_resistant_on (l ++ packedInput (c, op)) ->
  provenance l s ->
  provenance (l ++ packedInput (c, op)) (exec c op s).2.
Proof.
  intros [Hnz _] Hprov id Hex.
  apply exec_recordExists_inv in Hex
    as [Hex|(h & i & n & t & sz & d & cs & -> & Hok & ->)].
  - destruct (Hprov id Hex) as (c' & h' & Hin & Hd & Hidx).
    exists c', h'. split; [apply elem_of_app; by left|]. split; [done|].
    rewrite exec_idOfHash_kept; [done|]. rewrite Hidx, <- Hd.
    apply Hnz, elem_of_app. by left.
  - exists c, h. split; [apply elem_of_app; right; cbn; by left|].
    split; [done|].
    by rewrite exec_storage, Hok, idOfHash_registered, decide_True.
Qed.

Lemma collision_free_of_provenance l s t :
  provenance l s ->
  collision_resistant_on (l ++ packedInputs t) ->
  collision_free s t.
Proof.
  revert l s. induction t as [|[c op] t IH]; intros l s Hprov Hres; [done|].
  change (packedInputs ((c, op) :: t))
    with (packedInput (c, op) ++ packedInputs t) in Hres.
  rewrite app_assoc in Hres. split.
  - destruct op as [h i n ty sz d cs| | |]; try done.
    intros Hok. destruct (recordExists s (deriveId c h)) eqn:Hex; [|done].
    exfalso. destruct Hres as [Hnz Hinj].
    destruct (Hprov _ Hex) as (c' & h' & Hin & Hd & Hidx).
    assert (Hhere : encodePacked h (msg_sender c) (block_timestamp c)
                      (block_number c)
                    ∈ (l ++ packedInput (c, CallAddEvidence h i n ty sz d cs))
                      ++ packedInputs t).
    { apply elem_of_app. left. apply elem_of_app. right. cbn. by left. }
    assert (h' = h) as ->.
    { eapply encodePacked_hash_inj, Hinj; [|exact Hhere|exact Hd].
      apply elem_of_app. left. apply elem_of_app. by left. }
    apply addEvidence_ok_true in Hok as (_ & _ & Hz & _).
    apply (Hnz _ Hhere). change (deriveId c h = 0). congruence.
  - eapply IH; [|exact Hres]. apply exec_provenance; [|done].
    destruct Hres as [Hnz Hinj].
    split; [intros x Hx|intros x y Hx Hy]; [apply Hnz|apply Hinj];
      apply elem_of_app; by left.
Qed.

(** From the constructor on, collision resistance of the digest on the
    packed inputs of the registrations rules every collision out. *)
Lemma collision_free_of_resistant c0 t :
  collision_resistant_on (packedInputs t) ->
  collision_free (constructor c0) t.
Proof.
  intros Hres. apply (collision_free_of_provenance []); [|done].
  intros id Hex. by vm_compute in Hex.
Qed.

(** ** The lists and the counter *)

#[local] Abbreviation registration := (registration keccak256).
#[local] Abbreviation digest_nonzero := (digest_nonzero keccak256).

Lemma registration_Some c op s id :
  registration c op s = Some id ->
  exists h i n t sz d cs,
    op = CallAddEvidence h i n t sz d cs
    /\ addEvidence_ok h n s = true /\ id = deriveId c h.
Proof.
  destruct op as [h i n t sz d cs| | |]; try done. cbn.
  destruct (addEvidence_ok h n s) eqn:Hok; [|done].
  intros [= <-]. by eexists _, _, _, _, _, _, _.
Qed.

Lemma exec_allEvidenceIds c op s :
  allEvidenceIds (exec c op s).2
  = allEvidenceIds s ++ option_list (registration c op s).
Proof.
  rewrite exec_storage.
  destruct op as [h i n t sz d cs|id|id st n|id a n]; cbn.
  - destruct (addEvidence_ok h n s); [done|by rewrite app_nil_r].
  - destruct (mutation_ok c id s); by rewrite app_nil_r.
  - destruct (mutation_ok c id s); by rewrite app_nil_r.
  - destruct (recordExists s id); by rewrite app_nil_r.
Qed.

Lemma exec_totalEvidence c op s :
  totalEvidence (exec c op s).2
  = totalEvidence s + Z.of_nat (length (option_list (registration c op s))).
Proof.
  rewrite exec_storage.
  destruct op as [h i n t sz d cs|id|id st n|id a n]; cbn.
  - destruct (addEvidence_ok h n s); cbn; [done|lia].
  - destruct (mutation_ok c id s); cbn; lia.
  - destruct (mutation_ok c id s); cbn; lia.
  - destruct (recordExists s id); cbn; lia.
Qed.

Lemma exec_owner c op s : owner (exec c op s).2 = owner s.
Proof.
  rewrite exec_storage.
  destruct op as [h i n t sz d cs|id|id st n|id a n]; cbn.
  - by destruct (addEvidence_ok h n s).
  - by destruct (mutation_ok c id s).
  - by destruct (mutation_ok c id s).
  - by destruct (recordExists s id).
Qed.

Lemma exec_idsOf c op s who :
  idsOf (exec c op s).2 who
  = idsOf s who
    ++ (if decide (msg_sender c = who) then option_list (registration c op s)
        else []).
Proof.
  rewrite exec_storage.
  destruct op as [h i n t sz d cs|id|id st n|id a n]; cbn.
  - destruct (addEvidence_ok h n s).
    + rewrite idsOf_registered. case_decide; [done|by rewrite app_nil_r].
    + case_decide; by rewrite app_nil_r.
  - destruct (mutation_ok c id s); case_decide; by rewrite app_nil_r.
  - destruct (mutation_ok c id s); case_decide; by rewrite app_nil_r.
  - destruct (recordExists s id); case_decide; by rewrite app_nil_r.
Qed.

(** How one transaction changes a record: a registration writes the slot
    of its identifier, a seal or a status update one field of its record. *)
Lemma exec_evidenceAt c op s id :
  evidenceAt (exec c op s).2 id =
    match op with
    | CallAddEvidence h i n t sz d cs =>
        if decide (registration c op s = Some id)
        then mkEvidence h i n t sz d cs (block_timestamp c) (msg_sender c)
                        false Active
        else evidenceAt s id
    | CallSealEvidence id' =>
        if decide (id' = id) then
          if mutation_ok c id s then withSealed true (evidenceAt s id)
          else evidenceAt s id
        else evidenceAt s id
    | CallUpdateStatus id' st _ =>
        if decide (id' = id) then
          if mutation_ok c id s then withStatus st (evidenceAt s id)
          else evidenceAt s id
        else evidenceAt s id
    | CallLogAudit _ _ _ => evidenceAt s id
    end.
Proof.
  rewrite exec_storage.
  destruct op as [h i n t sz d cs|id'|id' st n|id' a n]; cbn.
  - destruct (addEvidence_ok h n s).
    + rewrite evidenceAt_registered.
      destruct (decide (deriveId c h = id)) as [->|Hne].
      * by rewrite decide_True.
      * rewrite decide_False; [done|congruence].
    + by rewrite decide_False.
  - case_decide; [subst id'|].
    + destruct (mutation_ok c id s); [|done].
      rewrite evidenceAt_pushAuditLog, evidenceAt_setEvidence. by rewrite decide_True.
    + destruct (mutation_ok c id' s); [|done].
      rewrite evidenceAt_pushAuditLog, evidenceAt_setEvidence. by rewrite decide_False.
  - case_decide; [subst id'|].
    + destruct (mutation_ok c id s); [|done].
      rewrite evidenceAt_pushAuditLog, evidenceAt_setEvidence. by rewrite decide_True.
    + destruct (mutation_ok c id' s); [|done].
      rewrite evidenceAt_pushAuditLog, evidenceAt_setEvidence. by rewrite decide_False.
  - by destruct (recordExists s id').
Qed.

Lemma registration_hash_nonempty c op s id :
  registration c op s = Some id ->
  recordExists (exec c op s).2 id = true.
Proof.
  intros Hreg. unfold recordExists. rewrite exec_evidenceAt.
  destruct (registration_Some _ _ _ _ Hreg)
    as (h & i & n & t & sz & d & cs & -> & Hok & ->).
  rewrite decide_True by done. cbn [fileHash].
  apply addEvidence_ok_true in Hok as (Hh & _). by apply bytesLength_pos.
Qed.

(** A record, once stored, stays stored: no function clears a slot. *)
Lemma exec_recordExists_mono c op s id :
  recordExists s id = true -> recordExists (exec c op s).2 id = true.
Proof.
  intros Hex. destruct (decide (registration c op s = Some id)) as [Hreg|Hreg].
  { by apply registration_hash_nonempty. }
  unfold recordExists in *. rewrite exec_evidenceAt.
  destruct op as [h i n t sz d cs|id'|id' st n|id' a n].
  - by rewrite decide_False.
  - case_decide; [|done]. by destruct (mutation_ok c id s).
  - case_decide; [|done]. by destruct (mutation_ok c id s).
  - done.
Qed.

Lemma exec_recordExists_iff c op s id :
  recordExists (exec c op s).2 id = true <->
  recordExists s id = true \/ registration c op s = Some id.
Proof.
  split.
  - intros Hex. apply exec_recordExists_inv in Hex
      as [Hex|(h & i & n & t & sz & d & cs & -> & Hok & ->)]; [by left|].
    right. cbn. by rewrite Hok.
  - intros [Hex|Hreg];
      [by apply exec_recordExists_mono | by apply registration_hash_nonempty].
Qed.

Lemma exec_listed_records c op s :
  listed_records s -> listed_records (exec c op s).2.
Proof.
  intros [Hrec Hcount]. split.
  - intros id. rewrite exec_recordExists_iff, exec_allEvidenceIds, elem_of_app, Hrec.
    destruct (registration c op s) as [id0|]; cbn.
    + rewrite list_elem_of_singleton.
      split; (intros [?|?]; [by left | right; congruence]).
    + rewrite elem_of_nil. split; (intros [?|?]; [by left | done]).
  - rewrite exec_totalEvidence, exec_allEvidenceIds, length_app. lia.
Qed.

Lemma run_listed_records s t : listed_records s -> listed_records (run s t).
Proof.
  revert s. induction t as [|[c op] t IH]; intros s Hinv; [done|].
  run_step. by apply IH, exec_listed_records.
Qed.

Lemma constructor_listed_records c : listed_records (constructor c).
Proof.
  split; [|done]. intros id. split; [done|]. intros H. by apply elem_of_nil in H.
Qed.

Lemma run_owner s t : owner (run s t) = owner s.
Proof.
  revert s. induction t as [|[c op] t IH]; intros s; [done|].
  run_step. by rewrite IH, exec_owner.
Qed.

Lemma run_allEvidenceIds s t :
  exists new, allEvidenceIds (run s t) = allEvidenceIds s ++ new.
Proof.
  revert s. induction t as [|[c op] t IH]; intros s.
  - exists []. by rewrite app_nil_r.
  - run_step. destruct (IH (exec c op s).2) as [new ->].
    rewrite exec_allEvidenceIds. eexists. by rewrite <- app_assoc.
Qed.

Lemma run_recordExists_mono s t id :
  recordExists s id = true -> recordExists (run s t) id = true.
Proof.
  revert s. induction t as [|[c op] t IH]; intros s Hex; [done|].
  run_step. by apply IH, exec_recordExists_mono.
Qed.

Lemma metadata_uploader e e' : metadata e' = metadata e -> uploader e' = uploader e.
Proof. intros H. by apply (f_equal uploader) in H. Qed.

Lemma metadata_timestamp e e' :
  metadata e' = metadata e -> timestamp e' = timestamp e.
Proof. intros H. by apply (f_equal timestamp) in H. Qed.

(** What one transaction does to a slot: a registration writes the slot of
    its identifier and no other; any other call leaves every field but
    [isSealed] and [status] of every slot as it is. *)
Lemma exec_evidenceAt_cases c op s id :
  match registration c op s with
  | Some id0 =>
      evidenceAt (exec c op s).2 id
      = (if decide (id0 = id) then evidenceAt (exec c op s).2 id0
         else evidenceAt s id)
      /\ uploader (evidenceAt (exec c op s).2 id0) = msg_sender c
      /\ timestamp (evidenceAt (exec c op s).2 id0) = block_timestamp c
  | None => metadata (evidenceAt (exec c op s).2 id) = metadata (evidenceAt s id)
  end.
Proof.
  destruct (registration c op s) as [id0|] eqn:Hreg.
  - destruct (registration_Some _ _ _ _ Hreg)
      as (h & i & n & t & sz & d & cs & -> & Hok & ->).
    rewrite exec_storage, Hok, !evidenceAt_registered.
    by rewrite (decide_True (P := deriveId c h = deriveId c h)).
  - rewrite exec_evidenceAt.
    destruct op as [h i n t sz d cs|id'|id' st n|id' a n].
    + by rewrite Hreg, decide_False.
    + case_decide; [|done]. by destruct (mutation_ok c id s).
    + case_decide; [|done]. by destruct (mutation_ok c id s).
    + done.
Qed.

Lemma exec_logsAt_registration c op s id0 :
  registration c op s = Some id0 ->
  logsAt (exec c op s).2 id0 = logsAt s id0 ++ [creationEntry c].
Proof.
  intros Hreg. destruct (registration_Some _ _ _ _ Hreg)
    as (h & i & n & t & sz & d & cs & -> & Hok & ->).
  by rewrite exec_storage, Hok, logsAt_registered, decide_True.
Qed.

Lemma digest_fresh_registration c op s id0 :
  digest_fresh c op s -> registration c op s = Some id0 ->
  recordExists s id0 = false.
Proof.
  intros Hfresh Hreg. destruct (registration_Some _ _ _ _ Hreg)
    as (h & i & n & t & sz & d & cs & -> & Hok & ->).
  by apply Hfresh.
Qed.

Lemma exec_NoDup c op s :
  listed_records s -> digest_fresh c op s ->
  NoDup (allEvidenceIds s) -> NoDup (allEvidenceIds (exec c op s).2).
Proof.
  intros [Hrec _] Hfresh Hnd. rewrite exec_allEvidenceIds.
  destruct (registration c op s) as [id0|] eqn:Hreg; cbn; [|by rewrite app_nil_r].
  apply NoDup_app. split; [done|]. split; [|apply NoDup_singleton].
  intros id Hin. rewrite list_elem_of_singleton. intros ->.
  apply Hrec in Hin.
  pose proof (digest_fresh_registration _ _ _ _ Hfresh Hreg). congruence.
Qed.

Lemma exec_uploader_lists c op s :
  digest_fresh c op s -> uploader_lists s -> uploader_lists (exec c op s).2.
Proof.
  intros Hfresh Hinv who id.
  rewrite exec_idsOf, elem_of_app, (Hinv who id), exec_recordExists_iff.
  pose proof (exec_evidenceAt_cases c op s id) as Hcases.
  destruct (registration c op s) as [id0|] eqn:Hreg.
  - destruct Hcases as (He & Hu & _).
    pose proof (digest_fresh_registration _ _ _ _ Hfresh Hreg) as Hnew.
    destruct (decide (id0 = id)) as [->|Hne].
    + rewrite Hu. case_decide; cbn.
      * rewrite list_elem_of_singleton. split; [intros _; split; [by right|done]|].
        intros _. by right.
      * rewrite elem_of_nil. split; [intros [[? _]|[]]; congruence|].
        intros [_ ?]. congruence.
    + rewrite He. split.
      * intros [[? ?]|Hin]; [split; [by left|done]|].
        case_decide; [|by apply elem_of_nil in Hin].
        apply list_elem_of_singleton in Hin. congruence.
      * intros [[?|?] ?]; [by left | congruence].
  - rewrite (metadata_uploader _ _ Hcases).
    destruct (decide (msg_sender c = who)); cbn; rewrite elem_of_nil;
      (split; [intros [[? ?]|[]]; split; [by left|done]
              |intros [[?|?] ?]; [by left|done]]).
Qed.

Lemma exec_trails_start_at_creation c op s :
  digest_fresh c op s -> blank_slots s ->
  trails_start_at_creation s -> trails_start_at_creation (exec c op s).2.
Proof.
  intros Hfresh Hblank Hinv id Hex.
  pose proof (exec_evidenceAt_cases c op s id) as Hcases.
  apply exec_recordExists_iff in Hex.
  assert (Hold : recordExists s id = true ->
            metadata (evidenceAt (exec c op s).2 id) = metadata (evidenceAt s id) ->
            exists later, logsAt (exec c op s).2 id
              = creationEntryOf (evidenceAt (exec c op s).2 id) :: later).
  { intros Hex' Hm. destruct (Hinv id Hex') as [later Hl].
    destruct (exec_logs_append c op s id) as [l ->]. rewrite Hl.
    exists (later ++ l). unfold creationEntryOf.
    by rewrite (metadata_uploader _ _ Hm), (metadata_timestamp _ _ Hm). }
  destruct (registration c op s) as [id0|] eqn:Hreg.
  - destruct Hcases as (He & Hu & Ht).
    pose proof (digest_fresh_registration _ _ _ _ Hfresh Hreg) as Hnew.
    destruct (decide (id0 = id)) as [->|Hne].
    + exists []. rewrite (exec_logsAt_registration _ _ _ _ Hreg).
      destruct (Hblank _ Hnew) as [-> _].
      unfold creationEntryOf, creationEntry. by rewrite Hu, Ht.
    + destruct Hex as [Hex|?]; [|congruence]. apply Hold; [done|]. by rewrite He.
  - destruct Hex as [Hex|?]; [|done]. by apply Hold.
Qed.

Lemma exec_records_indexed c op s :
  digest_fresh c op s -> digest_nonzero (c, op) ->
  records_indexed s -> records_indexed (exec c op s).2.
Proof.
  intros Hfresh Hnz Hinv id Hex.
  pose proof (exec_evidenceAt_cases c op s id) as Hcases.
  apply exec_recordExists_iff in Hex.
  destruct (registration c op s) as [id0|] eqn:Hreg.
  - destruct Hcases as (He & _).
    destruct (registration_Some _ _ _ _ Hreg)
      as (h & i & n & t & sz & d & cs & -> & Hok & ->).
    pose proof (Hfresh Hok) as Hnew. rewrite exec_storage, Hok in *.
    destruct (decide (deriveId c h = id)) as [<-|Hne].
    + split; [done|]. rewrite evidenceAt_registered, decide_True by done.
      cbn [fileHash]. by rewrite idOfHash_registered, decide_True.
    + destruct Hex as [Hex|?]; [|congruence].
      destruct (Hinv id Hex) as [Hid Hidx]. split; [done|].
      rewrite evidenceAt_registered, decide_False by done.
      rewrite idOfHash_registered. case_decide as Hh; [|done].
      apply addEvidence_ok_true in Hok as (_ & _ & Hz & _).
      rewrite <- Hh in Hidx. congruence.
  - destruct Hex as [Hex|?]; [|done].
    destruct (Hinv id Hex) as [Hid Hidx]. split; [done|].
    rewrite (metadata_fileHash _ _ Hcases).
    rewrite exec_idOfHash_kept; [done|congruence].
Qed.

(** The four invariants along a sequence of transactions. *)
Lemma run_NoDup s t :
  listed_records s -> collision_free s t ->
  NoDup (allEvidenceIds s) -> NoDup (allEvidenceIds (run s t)).
Proof.
  revert s. induction t as [|[c op] t IH]; intros s Hl Hcf Hnd; [done|].
  destruct Hcf as [Hfresh Hcf].
  run_step. apply IH; [by apply exec_listed_records|done|by apply exec_NoDup].
Qed.

Lemma run_uploader_lists s t :
  collision_free s t -> uploader_lists s -> uploader_lists (run s t).
Proof.
  revert s. induction t as [|[c op] t IH]; intros s Hcf Hinv; [done|].
  destruct Hcf as [Hfresh Hcf].
  run_step. apply IH; [done|by apply exec_uploader_lists].
Qed.

Lemma run_trails_start_at_creation s t :
  collision_free s t -> blank_slots s ->
  trails_start_at_creation s -> trails_start_at_creation (run s t).
Proof.
  revert s. induction t as [|[c op] t IH]; intros s Hcf Hb Hinv; [done|].
  destruct Hcf as [Hfresh Hcf].
  run_step. apply IH; [done|by apply exec_blank_slots
                      |by apply exec_trails_start_at_creation].
Qed.

Lemma run_records_indexed s t :
  collision_free s t -> Forall digest_nonzero t ->
  records_indexed s -> records_indexed (run s t).
Proof.
  revert s. induction t as [|[c op] t IH]; intros s Hcf Hnz Hinv; [done|].
  destruct Hcf as [Hfresh Hcf].
  apply Forall_cons in Hnz as [Hnz0 Hnz].
  run_step. apply IH; [done|done|by apply exec_records_indexed].
Qed.

Lemma constructor_no_record c id : recordExists (constructor c) id = false.
Proof. done. Qed.

Lemma collision_resistant_nonzero t :
  collision_resistant_on (packedInputs t) -> Forall digest_nonzero t.
Proof.
  intros [Hnz _]. apply Forall_forall. intros [c op] Hin.
  destruct op as [h i n ty sz d cs| | |]; try done. cbn.
  apply Hnz. unfold packedInputs. apply list_elem_of_In, in_flat_map.
  exists (c, CallAddEvidence h i n ty sz d cs).
  split; [by apply list_elem_of_In|]. cbn. by left.
Qed.

(** ** The packed encoding *)

Lemma to_N_byte_of_Z z : Z.of_N (Byte.to_N (byte_of_Z z)) = z mod 256.
Proof.
  pose proof (Z.mod_pos_bound z 256 eq_refl) as Hb. unfold byte_of_Z.
  destruct (Byte.of_N (Z.to_N (z mod 256))) as [b|] eqn:Hof; cbn.
  - apply Byte.to_of_N in Hof. rewrite Hof. lia.
  - apply Byte.of_N_None_iff in Hof. lia.
Qed.

Lemma le_bytes_inj n z z' :
  le_bytes n z = le_bytes n z' ->
  z mod 256 ^ Z.of_nat n = z' mod 256 ^ Z.of_nat n.
Proof.
  revert z z'. induction n as [|n IH]; intros z z' H.
  - cbn. by rewrite !Z.mod_1_r.
  - cbn [le_bytes] in H. injection H as Hb Ht.
    apply (f_equal (fun b => Z.of_N (Byte.to_N b))) in Hb.
    rewrite !to_N_byte_of_Z in Hb. apply IH in Ht.
    rewrite Nat2Z.inj_succ, Z.pow_succ_r by lia.
    rewrite !Z.rem_mul_r by lia. by rewrite Hb, Ht.
Qed.

Lemma be_bytes_inj n z z' :
  be_bytes n z = be_bytes n z' ->
  z mod 256 ^ Z.of_nat n = z' mod 256 ^ Z.of_nat n.
Proof.
  unfold be_bytes. intros H. apply le_bytes_inj.
  apply (f_equal (@rev byte)) in H. by rewrite !rev_involutive in H.
Qed.

(** X12. [abi.encodePacked(fileHash, msg.sender, block.timestamp,
    block.number)] determines its four arguments: the hash as it is, the
    sender as a 160-bit value and the two numbers as 256-bit values. *)
Theorem encodePacked_injective h a t n h' a' t' n' :
  encodePacked h a t n = encodePacked h' a' t' n' ->
  h = h'
  /\ a mod 2 ^ 160 = a' mod 2 ^ 160
  /\ t mod 2 ^ 256 = t' mod 2 ^ 256
  /\ n mod 2 ^ 256 = n' mod 2 ^ 256.
Proof.
  intros H. split; [by eapply encodePacked_hash_inj|].
  unfold encodePacked in H.
  apply app_inj_2 in H as [_ H]; [|by rewrite !length_app, !length_be_bytes].
  apply app_inj_1 in H as [Ha H]; [|by rewrite !length_be_bytes].
  apply app_inj_1 in H as [Ht Hn]; [|by rewrite !length_be_bytes].
  apply be_bytes_inj in Ha, Ht, Hn.
  change (256 ^ Z.of_nat 20) with (2 ^ 160) in Ha.
  change (256 ^ Z.of_nat 32) with (2 ^ 256) in Ht, Hn. done.
Qed.

(** ** The ledger along every sequence of calls *)

Lemma call_getAuditLogs id s :
  call (getAuditLogs id) s =
    if recordExists s id then (inr (logsAt s id, []), s)
    else (inl (Revert NOT_FOUND), s).
Proof. unfold getAuditLogs. tx_unfold. by destruct (recordExists s id). Qed.

(** X1. The audit trail of a record only grows at its end: after any
    sequence of calls [getAuditLogs] returns the entries it returned before,
    in the same order, followed by the new ones. *)
Theorem audit_trail_only_grows s t id :
  recordExists s id = true ->
  exists later,
    call (getAuditLogs id) s = (inr (logsAt s id, []), s)
    /\ call (getAuditLogs id) (run s t)
       = (inr (logsAt s id ++ later, []), run s t).
Proof.
  intros Hex. destruct (run_logs_append s t id) as [later Hl].
  exists later. pose proof (run_recordExists_mono s t id Hex) as Hex'.
  by rewrite !call_getAuditLogs, Hex, Hex', Hl.
Qed.

(** X2. The owner is the sender of the deployment, whatever calls follow:
    no function writes [owner]. *)
Theorem owner_never_changes c0 t :
  owner (run (constructor c0) t) = msg_sender c0.
Proof. by rewrite run_owner. Qed.


(** X4. Through every sequence of calls without a collision of the digest,
    a record keeps its hash, locator, name, type, size, description, case,
    time and uploader; only [status] and [isSealed] change, and [isSealed]
    only from false to true. *)
Theorem record_metadata_never_changes s t id :
  collision_free s t ->
  recordExists s id = true ->
  let e := evidenceAt s id in
  let e' := evidenceAt (run s t) id in
  fileHash e' = fileHash e /\ ipfsHash e' = ipfsHash e
  /\ fileName e' = fileName e /\ fileType e' = fileType e
  /\ fileSize e' = fileSize e /\ description e' = description e
  /\ caseId e' = caseId e /\ timestamp e' = timestamp e
  /\ uploader e' = uploader e
  /\ (isSealed e = true -> isSealed e' = true).
Proof.
  intros Hcf Hex e e'.
  destruct (run_record_kept s t id Hcf Hex) as (_ & Hm & Hs). fold e e' in Hm, Hs.
  pose proof (f_equal fileHash Hm). pose proof (f_equal ipfsHash Hm).
  pose proof (f_equal fileName Hm). pose proof (f_equal fileType Hm).
  pose proof (f_equal fileSize Hm). pose proof (f_equal description Hm).
  pose proof (f_equal caseId Hm). pose proof (f_equal timestamp Hm).
  pose proof (f_equal uploader Hm).
  repeat split; try done. intros Hsealed. by rewrite (Hs Hsealed).
Qed.

(** X5. No function deletes a record: an identifier [getEvidence] answers
    for is answered for after every sequence of calls. *)
Theorem records_are_never_deleted s t id :
  recordExists s id = true ->
  call (getEvidence id) (run s t) = (inr (evidenceAt (run s t) id, []), run s t).
Proof.
  intros Hex. by rewrite call_getEvidence, (run_recordExists_mono s t id Hex).
Qed.

(** X6. Without a collision of the digest, no identifier is listed twice
    by [getAllEvidenceIds]. *)
Theorem listed_ids_are_distinct c0 t :
  collision_free (constructor c0) t ->
  NoDup (allEvidenceIds (run (constructor c0) t)).
Proof.
  intros Hcf. apply run_NoDup; [apply constructor_listed_records|done|].
  apply NoDup_nil_2.
Qed.

(** X7. Without a collision of the digest, [getUploaderEvidence] returns
    for an address the listed identifiers whose record this address
    uploaded, and no other. *)
Theorem uploader_list_holds_own_records c0 t who id :
  collision_free (constructor c0) t ->
  let s := run (constructor c0) t in
  call (getUploaderEvidence who) s = (inr (idsOf s who, []), s)
  /\ (id ∈ idsOf s who <->
      id ∈ allEvidenceIds s /\ uploader (evidenceAt s id) = who).
Proof.
  intros Hcf s. split; [done|].
  destruct (run_listed_records _ t (constructor_listed_records c0)) as [Hrec _].
  fold s in Hrec. rewrite <- Hrec.
  apply (run_uploader_lists _ t Hcf). intros who' id'. split.
  - intros H. by apply elem_of_nil in H.
  - by intros [? _].
Qed.

(** X8. Without a collision of the digest, the audit trail of every record
    starts with the entry of its registration: [EVIDENCE_ADDED], by the
    uploader of the record, at the time of the record. *)
Theorem trail_starts_with_creation c0 t id :
  collision_free (constructor c0) t ->
  let s := run (constructor c0) t in
  recordExists s id = true ->
  exists later,
    logsAt s id
    = mkAuditLog (uploader (evidenceAt s id)) "EVIDENCE_ADDED"
                 (timestamp (evidenceAt s id)) "Initial upload" :: later.
Proof.
  intros Hcf s Hex.
  apply (run_trails_start_at_creation _ t Hcf (constructor_blank_slots c0));
    [|done].
  by intros id' ?.
Qed.

(** X9. When the digest is collision resistant on the packed inputs of
    the registrations, [verifyEvidence] finds every record by its hash, so
    no two records hold the same hash. *)
Theorem one_record_per_hash c0 t id1 id2 :
  collision_resistant_on (packedInputs t) ->
  let s := run (constructor c0) t in
  recordExists s id1 = true ->
  recordExists s id2 = true ->
  call (verifyEvidence (fileHash (evidenceAt s id1))) s
    = (inr ((true, id1, uploader (evidenceAt s id1),
             timestamp (evidenceAt s id1)), []), s)
  /\ (fileHash (evidenceAt s id1) = fileHash (evidenceAt s id2) -> id1 = id2).
Proof.
  intros Hres s Hex1 Hex2.
  assert (Hinv : records_indexed s).
  { apply run_records_indexed;
      [by apply collision_free_of_resistant
      |by apply collision_resistant_nonzero|by intros id ?]. }
  destruct (Hinv id1 Hex1) as [Hnz1 Hidx1]. destruct (Hinv id2 Hex2) as [_ Hidx2].
  split; [|congruence].
  rewrite call_verifyEvidence, Hidx1. apply Z.eqb_neq in Hnz1. by rewrite Hnz1.
Qed.

(** X10. A record is sealed once: in every state the contract can reach,
    [sealEvidence] on a sealed record reverts with "Evidence is sealed",
    whoever sends it, also after any later calls that run into no collision
    of the digest. *)
Theorem sealed_record_cannot_be_sealed_again c0 t0 t id c :
  let s := run (constructor c0) t0 in
  isSealed (evidenceAt s id) = true ->
  collision_free s t ->
  call (sealEvidence c id) (run s t) = (inl (Revert IS_SEALED), run s t).
Proof.
  intros s Hsealed Hcf.
  assert (Hex : recordExists s id = true).
  { destruct (recordExists s id) eqn:Hex; [done|].
    pose proof (run_blank_slots _ t0 (constructor_blank_slots c0) id Hex) as [_ Hb].
    fold s in Hb. congruence. }
  destruct (run_record_kept s t id Hcf Hex) as (Hex' & _ & Hkept).
  by rewrite call_sealEvidence, Hex', (Hkept Hsealed), Hsealed.
Qed.

(** X11. A sender who is neither the uploader of a record nor the owner
    cannot change the record: whatever function it calls, the record is as
    before (its registrations are taken to run into no collision). *)
Theorem stranger_cannot_change_records c op s id :
  digest_fresh c op s ->
  recordExists s id = true ->
  msg_sender c <> uploader (evidenceAt s id) ->
  msg_sender c <> owner s ->
  evidenceAt (exec c op s).2 id = evidenceAt s id.
Proof.
  intros Hfresh Hex Hu Ho.
  assert (Hno : mutation_ok c id s = false).
  { unfold mutation_ok. apply andb_false_iff. right.
    apply not_true_iff_false. rewrite mayMutate_spec. tauto. }
  rewrite exec_evidenceAt.
  destruct op as [h i n ty sz d cs|id'|id' st n|id' a n].
  - case_decide as Hreg; [|done].
    pose proof (digest_fresh_registration _ _ _ _ Hfresh Hreg). congruence.
  - rewrite Hno. by case_decide.
  - rewrite Hno. by case_decide.
  - done.
Qed.

(** ** The service layer *)

Lemma Number_exact x : 0 <= x <= 2 ^ 53 -> Backend.Number x = x.
Proof.
  intros [Hlo Hhi]. unfold Backend.Number.
  destruct (decide (x = 2 ^ 53)) as [->|Hne]; [by vm_compute|].
  destruct (decide (x = 0)) as [->|Hnz]; [by vm_compute|].
  assert (Hlog : Z.log2 x < 53) by (apply Z.log2_lt_pow2; lia).
  destruct (Z.log2 x + 1 <=? 53) eqn:Hb; [done|]. apply Z.leb_gt in Hb. lia.
Qed.

Lemma statusName_statusCode st :
  Backend.statusName (Backend.Number (Backend.statusCode st)) = Backend.statusLabel st.
Proof. by destruct st. Qed.

Lemma statusLabel_inj st st' : Backend.statusLabel st = Backend.statusLabel st' -> st = st'.
Proof. by destruct st, st'. Qed.

(** X13. [serializeEvidence] hands every text field, the uploader and the
    seal flag over as they are and names the status by its own name, a
    different name for each status; the size and the time are exact as long
    as they do not exceed 2^53. *)
Theorem serializeEvidence_is_faithful e :
  0 <= fileSize e <= 2 ^ 53 ->
  0 <= timestamp e <= 2 ^ 53 ->
  Backend.serializeEvidence e
  = Backend.mkEvidenceJson (fileHash e) (ipfsHash e) (fileName e) (fileType e)
      (fileSize e) (description e) (caseId e) (timestamp e) (uploader e)
      (isSealed e) (Backend.statusLabel (status e))
  /\ forall e',
       Backend.j_status (Backend.serializeEvidence e')
       = Backend.j_status (Backend.serializeEvidence e) ->
       status e' = status e.
Proof.
  intros Hsz Hts. unfold Backend.serializeEvidence.
  rewrite !Number_exact, statusName_statusCode by done. split; [done|].
  intros e'. cbn. rewrite !statusName_statusCode. apply statusLabel_inj.
Qed.

Lemma view_getEvidence id s :
  Backend.getEvidence id s =
    if recordExists s id then inr (Backend.serializeEvidence (evidenceAt s id))
    else inl (Revert NOT_FOUND).
Proof.
  unfold Backend.getEvidence, Backend.view. rewrite call_getEvidence.
  by destruct (recordExists s id).
Qed.

Lemma view_getAuditLogs id s :
  Backend.getAuditLogs id s =
    if recordExists s id then inr (map Backend.serializeLog (logsAt s id))
    else inl (Revert NOT_FOUND).
Proof.
  unfold Backend.getAuditLogs, Backend.view. rewrite call_getAuditLogs.
  by destruct (recordExists s id).
Qed.

Lemma all_inr {A} (f : Z -> Failure + A) (g : Z -> A) ids :
  (forall id, id ∈ ids -> f id = inr (g id)) ->
  Backend.all f ids = inr (map g ids).
Proof.
  induction ids as [|id ids IH]; intros Hf; [done|]. cbn.
  rewrite (Hf id) by apply list_elem_of_here.
  rewrite IH; [done|]. intros id' Hin. by apply Hf, list_elem_of_further.
Qed.

Lemma length_filter_map {A B} (f : A -> B) (P : B -> Prop) (Q : A -> Prop)
    `{!forall b, Decision (P b)} `{!forall a, Decision (Q a)} (l : list A) :
  (forall a, P (f a) <-> Q a) ->
  length (filter P (map f l)) = length (filter Q l).
Proof.
  intros HPQ. induction l as [|a l IH]; [done|]. cbn [map].
  rewrite !filter_cons.
  destruct (decide (P (f a))) as [HP|HP], (decide (Q a)) as [HQ|HQ];
    cbn; rewrite ?IH; try done; by apply HPQ in HP || apply HPQ in HQ.
Qed.

Lemma length_filter_disjoint {A} (P Q : A -> Prop)
    `{!forall a, Decision (P a)} `{!forall a, Decision (Q a)} (l : list A) :
  (forall a, P a -> Q a -> False) ->
  (length (filter P l) + length (filter Q l) <= length l)%nat.
Proof.
  intros Hdis. induction l as [|a l IH]; [done|].
  rewrite !filter_cons.
  destruct (decide (P a)) as [HP|HP], (decide (Q a)) as [HQ|HQ]; cbn;
    [by destruct (Hdis a)|lia..].
Qed.

Lemma serialized_status e st :
  Backend.j_status (Backend.serializeEvidence e) = Backend.statusLabel st <-> status e = st.
Proof.
  cbn. rewrite statusName_statusCode. split; [apply statusLabel_inj|by intros ->].
Qed.

(** X14. In every state the contract can reach the statistics route
    answers, never with an error: the total is the number of listed
    identifiers, and the three counts are those of the listed records that
    are [Active], sealed and [Disputed]; the seal is counted apart from the
    status, so [active + disputed] and [sealed] are each at most the number
    of records. *)
Theorem statsRoute_counts_the_ledger c0 t :
  let s := run (constructor c0) t in
  let records := map (evidenceAt s) (allEvidenceIds s) in
  let n_active := length (filter (fun e => status e = Active) records) in
  let n_sealed := length (filter (fun e => isSealed e = true) records) in
  let n_disputed := length (filter (fun e => status e = Disputed) records) in
  Backend.statsRoute s
  = Backend.StatsOk
      (Backend.mkStats (Backend.Number (Z.of_nat (length records)))
                       n_active n_sealed n_disputed)
  /\ (n_active + n_disputed <= length records)%nat
  /\ (n_sealed <= length records)%nat.
Proof.
  intros s records n_active n_sealed n_disputed.
  destruct (run_listed_records _ t (constructor_listed_records c0)) as [Hrec Hn].
  fold s in Hrec, Hn. split.
  - unfold Backend.statsRoute, Backend.getEvidenceCount, Backend.getAllEvidenceIds,
      Backend.view.
    unfold getEvidenceCount, getAllEvidenceIds. tx_unfold.
    rewrite (all_inr _ (fun id => Backend.serializeEvidence (evidenceAt s id))).
    2:{ intros id Hin. apply Hrec in Hin. by rewrite view_getEvidence, Hin. }
    rewrite <- (map_map (evidenceAt s) Backend.serializeEvidence). fold records.
    rewrite Hn. subst records. rewrite length_map.
    do 2 f_equal; apply length_filter_map; intros e.
    + apply (serialized_status e Active).
    + done.
    + apply (serialized_status e Disputed).
  - split; [|apply length_filter].
    apply length_filter_disjoint. intros e H1 H2. congruence.
Qed.

(** X15. In every state the contract can reach the listing route answers,
    never with an error, with every listed record, each with its
    identifier, the latest registration first. *)
Theorem allRoute_lists_the_ledger c0 t :
  let s := run (constructor c0) t in
  Backend.allRoute s
  = Backend.AllOk (length (allEvidenceIds s))
      (rev (map (fun id => (Backend.serializeEvidence (evidenceAt s id), id))
                (allEvidenceIds s))).
Proof.
  intros s.
  destruct (run_listed_records _ t (constructor_listed_records c0)) as [Hrec _].
  fold s in Hrec.
  unfold Backend.allRoute, Backend.getAllEvidenceIds, Backend.view.
  unfold getAllEvidenceIds. tx_unfold.
  rewrite (all_inr _ (fun id => (Backend.serializeEvidence (evidenceAt s id), id))).
  - by rewrite length_map.
  - intros id Hin. apply Hrec in Hin. by rewrite view_getEvidence, Hin.
Qed.

(** X16. The detail route answers 404 exactly when no record is stored
    under the identifier; otherwise it answers with the record and its whole
    audit trail, in order. *)
Theorem detailRoute_finds_records id s :
  Backend.detailRoute id s =
    if recordExists s id
    then Backend.DetailOk (Backend.serializeEvidence (evidenceAt s id))
                          (map Backend.serializeLog (logsAt s id))
    else Backend.DetailNotFound.
Proof.
  unfold Backend.detailRoute. rewrite view_getEvidence, view_getAuditLogs.
  by destruct (recordExists s id).
Qed.

(** X17. In every state reached without a collision of the digest the
    verification route never answers with an error: a hash the index does
    not hold is reported as not registered, and a hash it holds is verified
    with the record that stores exactly this hash and with the audit trail
    of that record. *)
Theorem verifyRoute_answers c0 t h :
  collision_free (constructor c0) t ->
  let s := run (constructor c0) t in
  let id := idOfHash s h in
  Backend.verifyRoute h s =
    (if id =? 0 then Backend.VerifyInvalid h
     else Backend.VerifyValid h (Backend.serializeEvidence (evidenceAt s id))
            (map Backend.serializeLog (logsAt s id)))
  /\ (id <> 0 -> fileHash (evidenceAt s id) = h).
Proof.
  intros Hcf s id. subst id.
  pose proof (run_index_consistent _ t Hcf (constructor_index_consistent c0))
    as Hinv. fold s in Hinv.
  split; [|by intros Hid; apply Hinv].
  unfold Backend.verifyRoute, Backend.verifyEvidence, Backend.getEvidenceByHash,
    Backend.view.
  rewrite call_verifyEvidence, call_getEvidenceByHash. cbn [fst].
  destruct (idOfHash s h =? 0) eqn:Hid; [done|]. cbn.
  apply Z.eqb_neq in Hid.
  by rewrite view_getAuditLogs, (index_consistent_exists s h Hinv Hid).
Qed.

(** The checks of the service, as propositions. *)
Lemma isUint256_spec x :
  Backend.isUint256 x = bool_decide (0 <= x < 2 ^ 256).
Proof.
  unfold Backend.isUint256, max_uint256.
  case_bool_decide as H.
  - apply andb_true_intro; split; [apply Z.leb_le | apply Z.leb_le]; lia.
  - apply andb_false_iff.
    destruct (decide (0 <= x)); [right; apply Z.leb_gt | left; apply Z.leb_gt];
      lia.
Qed.

Lemma isAddress_spec a :
  Backend.isAddress a = bool_decide (0 <= a < 2 ^ 160).
Proof.
  unfold Backend.isAddress.
  case_bool_decide as H.
  - apply andb_true_intro; split; [apply Z.leb_le | apply Z.ltb_lt]; lia.
  - apply andb_false_iff.
    destruct (decide (0 <= a)); [right; apply Z.ltb_ge | left; apply Z.leb_gt];
      lia.
Qed.

Lemma signs_spec deployer accounts from :
  Backend.signs deployer accounts from
  = bool_decide (from = deployer \/ from ∈ accounts).
Proof.
  unfold Backend.signs.
  do 3 case_bool_decide; try done; exfalso; tauto.
Qed.

Lemma mayMutate_decide c s id :
  mayMutate c s id
  = bool_decide (msg_sender c = uploader (evidenceAt s id)
                 \/ msg_sender c = owner s).
Proof.
  case_bool_decide as H.
  - by apply mayMutate_spec.
  - destruct (mayMutate c s id) eqn:Hm; [|done].
    by apply mayMutate_spec in Hm.
Qed.

(** X18. The seal route sends [sealEvidence] from the address of the
    request, or from the account of the service when the request names
    none. It answers with an error, and changes nothing, in this order:
    when the identifier is no [bytes32] or the sender no [address]; when no
    record is stored under the identifier, the record is sealed, or the
    sender is neither the uploader nor the owner; when the sender is neither
    the account of the service nor an account of the node. Otherwise the
    record is sealed, its other fields are kept, and the audit trail gains
    one entry that names the sender. When the account of the service is the
    owner, a request that names no address seals every unsealed record. *)
Theorem sealRoute_seals_as_the_service deployer accounts time number id from s :
  let sender := default deployer from in
  let c := mkContext sender time number in
  let s' := pushAuditLog id (sealedEntry c)
              (setEvidence id (withSealed true (evidenceAt s id)) s) in
  Backend.sealRoute deployer accounts time number id from s =
    (if negb (bool_decide (0 <= id < 2 ^ 256))
     then (Backend.SealError Backend.InvalidArgument, s)
     else if negb (bool_decide (0 <= sender < 2 ^ 160))
     then (Backend.SealError Backend.InvalidArgument, s)
     else if negb (recordExists s id)
     then (Backend.SealError (Backend.Reverted (Revert NOT_FOUND)), s)
     else if isSealed (evidenceAt s id)
     then (Backend.SealError (Backend.Reverted (Revert IS_SEALED)), s)
     else if negb (bool_decide (sender = uploader (evidenceAt s id)
                                \/ sender = owner s))
     then (Backend.SealError (Backend.Reverted (Revert NOT_AUTHORIZED_TO_SEAL)), s)
     else if negb (bool_decide (sender = deployer \/ sender ∈ accounts))
     then (Backend.SealError Backend.UnknownAccount, s)
     else (Backend.SealOk, s'))
  /\ evidenceAt s' id
     = (let e := evidenceAt s id in
        mkEvidence (fileHash e) (ipfsHash e) (fileName e) (fileType e)
          (fileSize e) (description e) (caseId e) (timestamp e) (uploader e)
          true (status e))
  /\ logsAt s' id
     = logsAt s id ++ [mkAuditLog sender "EVIDENCE_SEALED" time
                                  "Evidence sealed for integrity"]
  /\ (deployer = owner s -> from = None ->
      0 <= id < 2 ^ 256 -> 0 <= deployer < 2 ^ 160 ->
      recordExists s id = true -> isSealed (evidenceAt s id) = false ->
      Backend.sealRoute deployer accounts time number id from s
      = (Backend.SealOk, s')).
Proof.
  intros sender c s'.
  assert (Hroute :
    Backend.sealRoute deployer accounts time number id from s =
      (if negb (bool_decide (0 <= id < 2 ^ 256))
       then (Backend.SealError Backend.InvalidArgument, s)
       else if negb (bool_decide (0 <= sender < 2 ^ 160))
       then (Backend.SealError Backend.InvalidArgument, s)
       else if negb (recordExists s id)
       then (Backend.SealError (Backend.Reverted (Revert NOT_FOUND)), s)
       else if isSealed (evidenceAt s id)
       then (Backend.SealError (Backend.Reverted (Revert IS_SEALED)), s)
       else if negb (bool_decide (sender = uploader (evidenceAt s id)
                                  \/ sender = owner s))
       then (Backend.SealError
               (Backend.Reverted (Revert NOT_AUTHORIZED_TO_SEAL)), s)
       else if negb (bool_decide (sender = deployer \/ sender ∈ accounts))
       then (Backend.SealError Backend.UnknownAccount, s)
       else (Backend.SealOk, s'))).
  { unfold Backend.sealRoute, Backend.sealEvidence. fold sender c.
    rewrite isUint256_spec, isAddress_spec, signs_spec, call_sealEvidence.
    rewrite (mayMutate_decide c s id). cbn [msg_sender c].
    destruct (bool_decide (0 <= id < 2 ^ 256)); [|done].
    destruct (bool_decide (0 <= sender < 2 ^ 160)); [|done].
    destruct (recordExists s id); [|done].
    destruct (isSealed (evidenceAt s id)); [done|].
    destruct (bool_decide (sender = uploader (evidenceAt s id)
                           \/ sender = owner s)); [|done].
    cbn [negb andb fst].
    by destruct (bool_decide (sender = deployer \/ sender ∈ accounts)). }
  split; [exact Hroute|]. split; [|split].
  - subst s'. rewrite evidenceAt_pushAuditLog, evidenceAt_setEvidence.
    rewrite decide_True by done. by destruct (evidenceAt s id).
  - subst s'. rewrite logsAt_pushAuditLog, logsAt_setEvidence.
    by rewrite decide_True.
  - intros Ho Hf Hid Hd Hex Hs. rewrite Hroute. subst sender from.
    cbn [default]. rewrite Hex, Hs.
    rewrite !bool_decide_eq_true_2; [done|by left|by right|done|done].
Qed.

Lemma evidenceIdOfEvents_added id h n cs who time :
  Backend.evidenceIdOfEvents [EvidenceAdded id h n cs who time] = Some id.
Proof. done. Qed.

(** The upload route sends one transaction unless the index holds the
    hash. *)
Lemma upload_unfold deployer accounts time number req s :
  let h := Backend.file_hash req in
  let from := default deployer (Backend.body_uploaderAddress req) in
  let c := mkContext from time number in
  let size := default (Backend.file_size req) (Backend.body_fileSize req) in
  Backend.upload keccak256 deployer accounts time number req s =
    if negb (idOfHash s h =? 0) then (Backend.Conflict (idOfHash s h), s)
    else if negb (bool_decide (0 <= size < 2 ^ 256))
    then (Backend.ServerError Backend.InvalidArgument, s)
    else if negb (bool_decide (0 <= from < 2 ^ 160))
    then (Backend.ServerError Backend.InvalidArgument, s)
    else
      match call (addEvidence c h
                    (Backend.or_string (Backend.body_ipfsHash req) "")
                    (Backend.or_string (Backend.body_fileName req)
                                       (Backend.file_originalname req))
                    (Backend.or_string (Backend.body_fileType req)
                                       (Backend.file_mimetype req))
                    size
                    (Backend.or_string (Backend.body_description req) "")
                    (Backend.or_string (Backend.body_caseId req) "")) s with
      | (inl e, _) => (Backend.ServerError (Backend.Reverted e), s)
      | (inr (_, evs), s') =>
          if negb (bool_decide (from = deployer \/ from ∈ accounts))
          then (Backend.ServerError Backend.UnknownAccount, s)
          else (Backend.Created (Backend.evidenceIdOfEvents evs) h, s')
      end.
Proof.
  intros h from c size.
  unfold Backend.upload, Backend.verifyEvidence, Backend.addEvidence.
  rewrite call_verifyEvidence. cbn [fst]. fold h from c size.
  rewrite isUint256_spec, isAddress_spec, signs_spec.
  destruct (idOfHash s h =? 0); [|done]. cbn [negb].
  destruct (bool_decide (0 <= size < 2 ^ 256)); [|done].
  destruct (bool_decide (0 <= from < 2 ^ 160)); [|done]. cbn [negb].
  match goal with |- context [call ?m s] =>
    destruct (call m s) as [[e|[a evs]] s']
  end; cbn [fst]; [done|].
  by destruct (bool_decide (from = deployer \/ from ∈ accounts)).
Qed.

(** X19. The upload route, case by case and in this order. A hash the
    index holds is answered with a conflict. A size that is no [uint256] or
    a sender that is no [address] is an error; so is an empty hash, an empty
    name, and a counter at its maximum; so is a sender that is neither the
    account of the service nor an account of the node; each time nothing is
    stored. Otherwise the evidence is registered, from the address of the
    request or else from the account of the service, with the size of the
    request or else the size of the file, and under the name of the request
    or else, when the request has none or an empty one, the name of the
    file; the answer carries the identifier read from the event of the
    transaction, which is the identifier the contract derived, and under
    which the record is stored. *)
Theorem upload_case_by_case deployer accounts time number req s :
  let h := Backend.file_hash req in
  let ipfs := Backend.or_string (Backend.body_ipfsHash req) "" in
  let name := Backend.or_string (Backend.body_fileName req)
                                (Backend.file_originalname req) in
  let type := Backend.or_string (Backend.body_fileType req)
                                (Backend.file_mimetype req) in
  let size := default (Backend.file_size req) (Backend.body_fileSize req) in
  let descr := Backend.or_string (Backend.body_description req) "" in
  let case := Backend.or_string (Backend.body_caseId req) "" in
  let from := default deployer (Backend.body_uploaderAddress req) in
  let c := mkContext from time number in
  let s' := registered c h ipfs name type size descr case s in
  Backend.upload keccak256 deployer accounts time number req s =
    (if negb (idOfHash s h =? 0) then (Backend.Conflict (idOfHash s h), s)
     else if negb (bool_decide (0 <= size < 2 ^ 256))
     then (Backend.ServerError Backend.InvalidArgument, s)
     else if negb (bool_decide (0 <= from < 2 ^ 160))
     then (Backend.ServerError Backend.InvalidArgument, s)
     else if negb (0 <? bytesLength h)
     then (Backend.ServerError (Backend.Reverted (Revert FILE_HASH_REQUIRED)), s)
     else if negb (0 <? bytesLength name)
     then (Backend.ServerError (Backend.Reverted (Revert FILE_NAME_REQUIRED)), s)
     else if negb (totalEvidence s <? max_uint256)
     then (Backend.ServerError (Backend.Reverted (Panic 17)), s)
     else if negb (bool_decide (from = deployer \/ from ∈ accounts))
     then (Backend.ServerError Backend.UnknownAccount, s)
     else (Backend.Created (Some (deriveId c h)) h, s'))
  /\ evidenceAt s' (deriveId c h)
     = mkEvidence h ipfs name type size descr case time from false Active
  /\ idOfHash s' h = deriveId c h
  /\ (forall a b x, a = Some x -> x <> ""%string -> Backend.or_string a b = x)
  /\ (forall a b, a = None \/ a = Some ""%string -> Backend.or_string a b = b).
Proof.
  intros h ipfs name type size descr case from c s'.
  split; [|split; [|split; [|split]]].
  - rewrite upload_unfold. fold h ipfs name type size descr case from c.
    destruct (idOfHash s h =? 0) eqn:Hidx; [|done]. cbn [negb].
    destruct (bool_decide (0 <= size < 2 ^ 256)); [|done].
    destruct (bool_decide (0 <= from < 2 ^ 160)); [|done]. cbn [negb].
    rewrite call_addEvidence, Hidx.
    by destruct (0 <? bytesLength h), (0 <? bytesLength name),
      (totalEvidence s <? max_uint256).
  - subst s'. by rewrite evidenceAt_registered, decide_True.
  - subst s'. by rewrite idOfHash_registered, decide_True.
  - intros a b x -> Hx. unfold Backend.or_string.
    apply bytesLength_pos in Hx. by rewrite Hx.
  - intros a b [->| ->]; done.
Qed.

(** X20. Once the upload route registered a file under a non-zero
    identifier, and whatever calls follow without a collision of the digest,
    a second upload of the same file, by whomever and whenever, is answered
    with a conflict that carries this identifier and stores nothing, and the
    verification route verifies the file with the record of the first
    upload. *)
Theorem upload_is_registered_once deployer accounts time number req s oid s' t :
  Backend.upload keccak256 deployer accounts time number req s
    = (Backend.Created oid (Backend.file_hash req), s') ->
  let h := Backend.file_hash req in
  let c := mkContext (default deployer (Backend.body_uploaderAddress req))
                     time number in
  deriveId c h <> 0 ->
  collision_free s' t ->
  oid = Some (deriveId c h)
  /\ (forall deployer' accounts' time' number' req',
        Backend.file_hash req' = h ->
        Backend.upload keccak256 deployer' accounts' time' number' req' (run s' t)
        = (Backend.Conflict (deriveId c h), run s' t))
  /\ exists evidence auditLogs,
       Backend.verifyRoute h (run s' t) = Backend.VerifyValid h evidence auditLogs
       /\ Backend.j_fileHash evidence = h
       /\ Backend.j_uploader evidence = msg_sender c.
Proof.
  intros Hup h c Hnz Hcf. revert Hup. rewrite upload_unfold. fold h c.
  set (name := Backend.or_string (Backend.body_fileName req)
                 (Backend.file_originalname req)).
  destruct (idOfHash s h =? 0) eqn:Hidx; cbn [negb];
    [|intros Hup; discriminate Hup].
  destruct (bool_decide (0 <= _ < 2 ^ 256)); cbn [negb];
    [|intros Hup; discriminate Hup].
  destruct (bool_decide (0 <= _ < 2 ^ 160)); cbn [negb];
    [|intros Hup; discriminate Hup].
  rewrite call_addEvidence, Hidx.
  destruct (0 <? bytesLength h) eqn:Hh; cbn [negb];
    [|intros Hup; discriminate Hup].
  destruct (0 <? bytesLength name) eqn:Hn; cbn [negb];
    [|intros Hup; discriminate Hup].
  destruct (totalEvidence s <? max_uint256) eqn:Ht; cbn [negb];
    [|intros Hup; discriminate Hup].
  destruct (bool_decide (_ \/ _)); cbn [negb];
    [|intros Hup; discriminate Hup].
  intros Hup. injection Hup as <- <-. split; [done|].
  match goal with |- context [run ?s1 t] => set (s1' := s1) in * end.
  assert (Hi : idOfHash s1' h = deriveId c h).
  { subst s1'. by rewrite idOfHash_registered, decide_True. }
  assert (He : fileHash (evidenceAt s1' (deriveId c h)) = h
               /\ uploader (evidenceAt s1' (deriveId c h)) = msg_sender c).
  { subst s1'. by rewrite evidenceAt_registered, decide_True. }
  destruct He as [Hf Hu].
  assert (Hex : recordExists s1' (deriveId c h) = true).
  { unfold recordExists. by rewrite Hf. }
  destruct (run_record_kept s1' t _ Hcf Hex) as (Hex' & Hm & _).
  assert (Hi' : idOfHash (run s1' t) h = deriveId c h).
  { rewrite run_idOfHash_kept; congruence. }
  pose proof Hnz as Hnzb. apply Z.eqb_neq in Hnzb.
  split.
  - intros deployer' accounts' time' number' req' Hreq.
    rewrite upload_unfold, Hreq, Hi', Hnzb. done.
  - eexists _, _. split; [|split].
    + unfold Backend.verifyRoute, Backend.verifyEvidence,
        Backend.getEvidenceByHash, Backend.view.
      rewrite call_verifyEvidence, call_getEvidenceByHash, Hi', Hnzb. cbn.
      by rewrite view_getAuditLogs, Hex'.
    + cbn. rewrite (metadata_fileHash _ _ Hm). done.
    + cbn. rewrite (metadata_uploader _ _ Hm). done.
Qed.

(** X21. In every state the contract can reach, the dashboard shows the
    five records registered last (all of them when there are fewer), the
    latest first. *)
Theorem dashboard_shows_the_latest c0 t :
  let s := run (constructor c0) t in
  exists count data,
    Backend.allRoute s = Backend.AllOk count data
    /\ Frontend.recent (Some data)
       = map (fun id => (Backend.serializeEvidence (evidenceAt s id), id))
             (take 5 (rev (allEvidenceIds s))).
Proof.
  intros s.
  destruct (run_listed_records _ t (constructor_listed_records c0)) as [Hrec _].
  fold s in Hrec. eexists _, _. split.
  - unfold Backend.allRoute, Backend.getAllEvidenceIds, Backend.view.
    unfold getAllEvidenceIds. tx_unfold.
    rewrite (all_inr _ (fun id => (Backend.serializeEvidence (evidenceAt s id), id))).
    + done.
    + intros id Hin. apply Hrec in Hin. by rewrite view_getEvidence, Hin.
  - unfold Frontend.recent. cbn.
    by rewrite <- map_rev, firstn_map.
Qed.

(** ** Seals and lists *)

Lemma exec_seals_are_logged c op s :
  seals_are_logged s -> seals_are_logged (exec c op s).2.
Proof.
  intros Hinv id Hsealed.
  assert (Hold : isSealed (evidenceAt s id) = true ->
            uploader (evidenceAt (exec c op s).2 id) = uploader (evidenceAt s id) ->
            exists l, l ∈ logsAt (exec c op s).2 id
              /\ action l = "EVIDENCE_SEALED"%string
              /\ (actor l = uploader (evidenceAt (exec c op s).2 id)
                  \/ actor l = owner (exec c op s).2)).
  { intros Hs Hu. destruct (Hinv id Hs) as (l & Hin & Ha & Hwho).
    destruct (exec_logs_append c op s id) as [k Hk].
    exists l. rewrite Hk, Hu, exec_owner, elem_of_app. tauto. }
  revert Hsealed Hold. rewrite !exec_evidenceAt.
  destruct op as [h i n ty sz d cs|id'|id' st n|id' a n].
  - case_decide; [done|]. intros Hs Hold. by apply Hold.
  - case_decide as Hid; [subst id'|intros Hs Hold; by apply Hold].
    destruct (mutation_ok c id s) eqn:Hok; [|intros Hs Hold; by apply Hold].
    intros _ _. exists (sealedEntry c).
    rewrite exec_storage, Hok, logsAt_pushAuditLog, logsAt_setEvidence,
      decide_True by done.
    split; [apply elem_of_app; right; apply list_elem_of_here|]. split; [done|].
    unfold mutation_ok in Hok. apply andb_true_iff in Hok as [_ Hm].
    apply mayMutate_spec in Hm. cbn. tauto.
  - case_decide as Hid; [subst id'|intros Hs Hold; by apply Hold].
    destruct (mutation_ok c id s); intros Hs Hold; by apply Hold.
  - intros Hs Hold. by apply Hold.
Qed.

Lemma run_seals_are_logged s t : seals_are_logged s -> seals_are_logged (run s t).
Proof.
  revert s. induction t as [|[c op] t IH]; intros s Hinv; [done|].
  run_step. by apply IH, exec_seals_are_logged.
Qed.

(** X22. In every state the contract can reach, the audit trail of a
    sealed record holds an [EVIDENCE_SEALED] entry whose actor is the
    uploader of the record or the owner. *)
Theorem sealed_records_have_a_seal_entry c0 t id :
  let s := run (constructor c0) t in
  isSealed (evidenceAt s id) = true ->
  exists l, l ∈ logsAt s id
    /\ action l = "EVIDENCE_SEALED"%string
    /\ (actor l = uploader (evidenceAt s id) \/ actor l = msg_sender c0).
Proof.
  intros s Hsealed.
  assert (Hinv : seals_are_logged s).
  { apply run_seals_are_logged. by intros id' ?. }
  destruct (Hinv id Hsealed) as (l & Hin & Ha & Hwho).
  exists l. subst s. by rewrite run_owner in Hwho.
Qed.

Lemma run_idsOf s t who : exists new, idsOf (run s t) who = idsOf s who ++ new.
Proof.
  revert s. induction t as [|[c op] t IH]; intros s.
  - exists []. by rewrite app_nil_r.
  - run_step. destruct (IH (exec c op s).2) as [new ->].
    rewrite exec_idsOf. eexists. by rewrite <- app_assoc.
Qed.

(** X23. The lists only grow at their end: after any sequence of calls
    [getAllEvidenceIds] and [getUploaderEvidence] return what they returned
    before, in the same order, followed by the identifiers registered
    since, and [getEvidenceCount] has not decreased. *)
Theorem id_lists_only_grow s t who :
  exists new mine,
    allEvidenceIds (run s t) = allEvidenceIds s ++ new
    /\ idsOf (run s t) who = idsOf s who ++ mine
    /\ (listed_records s ->
        totalEvidence (run s t) = totalEvidence s + Z.of_nat (length new)).
Proof.
  destruct (run_allEvidenceIds s t) as [new Hnew].
  destruct (run_idsOf s t who) as [mine Hmine].
  exists new, mine. split; [done|]. split; [done|].
  intros Hl. destruct (run_listed_records s t Hl) as [_ Hn'].
  destruct Hl as [_ Hn]. rewrite Hn', Hn, Hnew, length_app. lia.
Qed.

End Properties.

(** * The scenario, evaluated *)

Import Scenario.

Ltac evaluate := vm_compute; repeat split; try done.

(** After the registration, [getEvidence] shows the report [Active] and
    not sealed, and its audit trail has one entry. *)
Example report_registered :
  let s := run sample_digest (constructor deployment) registration in
  (call (getEvidence X) s).1
    = inr (mkEvidence "a1f0" "" "report.pdf" "application/pdf" 52133 "" "CASE-1"
                      1700000100 2001 false Active, [])
  /\ (call (getAuditLogs X) s).1
     = inr ([mkAuditLog 2001 "EVIDENCE_ADDED" 1700000100 "Initial upload"], []).
Proof. by vm_compute. Qed.

(** After the seal, the refused update and the note of bob, the audit
    trail of the report has three entries: the creation, the seal and the
    note. *)
Example report_audit_trail :
  let s := run sample_digest (constructor deployment)
             (registration_and_seal ++ after_the_seal) in
  logsAt s X
  = [mkAuditLog 2001 "EVIDENCE_ADDED" 1700000100 "Initial upload";
     mkAuditLog 2001 "EVIDENCE_SEALED" 1700000200 "Evidence sealed for integrity";
     mkAuditLog 3002 "NOTE" 1700000400 "reviewed"]
  /\ totalEvidence s = 2
  /\ length (allEvidenceIds s) = 2%nat.
Proof. by vm_compute. Qed.

(** Alice registers the report and seals it. Then her status update is
    refused, bob adds a note and registers a photo: the report is as it was
    sealed. *)
Lemma C1_sealed_is_final_witness :
  let s := run sample_digest (constructor deployment) registration_and_seal in
  let s' := run sample_digest s after_the_seal in
  isSealed (evidenceAt s X) = true
  /\ evidenceAt s' X = evidenceAt s X
  /\ isSealed (evidenceAt s' X) = true
  /\ status (evidenceAt s' X) = status (evidenceAt s X)
  /\ forall c st n, call (updateStatus c X st n) s' = (inl (Revert IS_SEALED), s').
Proof.
  pose proof (C1_sealed_is_final sample_digest deployment registration_and_seal
                after_the_seal X) as T.
  cbv zeta in T |- *.
  assert (H1 : isSealed (evidenceAt (run sample_digest (constructor deployment)
                                        registration_and_seal) X) = true)
    by (by vm_compute).
  assert (H2 : collision_free sample_digest
                 (run sample_digest (constructor deployment) registration_and_seal)
                 after_the_seal) by evaluate.
  specialize (T H1 H2). split; [exact H1 | exact T].
Defined.

(** Bob uploads the file alice registered: the handler answers with a
    conflict that carries the identifier of her record. *)
Lemma C2_duplicate_hash_rejected_witness :
  let s := run sample_digest (constructor deployment) registration in
  idOfHash s "a1f0" = X
  /\ Backend.upload sample_digest 1 node_accounts 1700000600 12 resubmission s
     = (Backend.Conflict (idOfHash s "a1f0"), s)
  /\ fileHash (evidenceAt s (idOfHash s "a1f0")) = "a1f0"%string.
Proof.
  pose proof (C2_duplicate_hash_rejected sample_digest deployment registration
                1 node_accounts 1700000600 12 resubmission) as T.
  cbv zeta in T |- *.
  assert (H1 : collision_free sample_digest (constructor deployment) registration)
    by evaluate.
  assert (H2 : idOfHash (run sample_digest (constructor deployment) registration)
                 (Backend.file_hash resubmission) <> 0) by evaluate.
  destruct (T H1 H2) as (Hup & _ & Hf & _).
  split; [by vm_compute|]. split; [exact Hup | exact Hf].
Defined.

(** Alice registers the report after bob registered the photo. *)
Lemma C3_addEvidence_registers_witness :
  let s := run sample_digest (constructor deployment)
             [(bob 1700000050 6, photo)] in
  let c := alice 1700000100 7 in
  exists s',
    call (addEvidence sample_digest c "a1f0" "" "report.pdf" "application/pdf"
            52133 "" "CASE-1") s
      = (inr (deriveId sample_digest c "a1f0",
              [EvidenceAdded (deriveId sample_digest c "a1f0") "a1f0"
                 "report.pdf" "CASE-1" (msg_sender c) (block_timestamp c)]), s')
    /\ evidenceAt s' (deriveId sample_digest c "a1f0")
       = mkEvidence "a1f0" "" "report.pdf" "application/pdf" 52133 "" "CASE-1"
                    (block_timestamp c) (msg_sender c) false Active
    /\ idOfHash s' "a1f0" = deriveId sample_digest c "a1f0"
    /\ totalEvidence s' = totalEvidence s + 1
    /\ logsAt s' (deriveId sample_digest c "a1f0") = [creationEntry c].
Proof.
  pose proof (C3_addEvidence_registers sample_digest deployment
                [(bob 1700000050 6, photo)] (alice 1700000100 7)
                "a1f0" "" "report.pdf" "application/pdf" 52133 "" "CASE-1") as T.
  cbv zeta in T |- *.
  destruct T as (s' & Hcall & He & _ & Hidx & _ & _ & _ & _ & Htotal & _ & Hlogs & _);
    [done | done | by vm_compute | by vm_compute | by vm_compute |].
  exists s'. split; [exact Hcall|]. split; [exact He|]. split; [exact Hidx|].
  split; [exact Htotal | exact Hlogs].
Defined.

(** Bob adds a note to the report right after alice sealed it: the audit
    trail ends with the seal and the note. *)
Lemma C5_logAudit_witness :
  let s := run sample_digest (constructor deployment) registration in
  let c := bob 1700000400 10 in
  let c0 := alice 1700000200 8 in
  let sealed := (call (sealEvidence c0 X) s).2 in
  isSealed (evidenceAt sealed X) = true
  /\ (call (logAudit c X "NOTE" "reviewed") sealed).1
     = inr (tt, [EvidenceAuditLogged X (msg_sender c) "NOTE"])
  /\ logsAt (call (logAudit c X "NOTE" "reviewed") sealed).2 X
     = logsAt s X
       ++ [sealedEntry c0; mkAuditLog (msg_sender c) "NOTE" (block_timestamp c) "reviewed"].
Proof.
  pose proof (C5_logAudit (bob 1700000400 10) X "NOTE" "reviewed"
                (run sample_digest (constructor deployment) registration)) as T.
  cbv zeta in T |- *.
  destruct T as (_ & _ & _ & _ & _ & _ & _ & _ & _ & Hsealed).
  apply (Hsealed (alice 1700000200 8)); by vm_compute.
Defined.

(** Alice and the owner set the status of the report four times; it ends
    [Disputed], where it had been before, and the trail has the four
    entries behind the one of the registration. *)
Lemma C6_updateStatus_any_order_witness :
  let s := run sample_digest (constructor deployment) registration in
  let us := [(alice 1700000200 8, Disputed, "contested"%string);
             (the_owner 1700000300 9, Archived, "closed"%string);
             (alice 1700000400 10, Active, "reopened"%string);
             (alice 1700000500 11, Disputed, "contested again"%string)] in
  let s' := run sample_digest s (statusUpdates X us) in
  status (evidenceAt s' X) = Disputed
  /\ logsAt s' X
     = [mkAuditLog 2001 "EVIDENCE_ADDED" 1700000100 "Initial upload";
        mkAuditLog 2001 "STATUS_UPDATED" 1700000200 "contested";
        mkAuditLog 1 "STATUS_UPDATED" 1700000300 "closed";
        mkAuditLog 2001 "STATUS_UPDATED" 1700000400 "reopened";
        mkAuditLog 2001 "STATUS_UPDATED" 1700000500 "contested again"].
Proof.
  pose proof (C6_updateStatus_any_order sample_digest
    (run sample_digest (constructor deployment) registration) X
    [(alice 1700000200 8, Disputed, "contested"%string);
     (the_owner 1700000300 9, Archived, "closed"%string);
     (alice 1700000400 10, Active, "reopened"%string);
     (alice 1700000500 11, Disputed, "contested again"%string)]) as T.
  cbv zeta in T |- *.
  destruct T as (Hst & _ & Hl & _); [by vm_compute | by vm_compute | |].
  { repeat (apply Forall_cons; split; [vm_compute; auto|]). apply Forall_nil_2. }
  split; [exact Hst|]. rewrite Hl. by vm_compute.
Defined.

(** Before any registration the hash of the report is unknown; once it
    is registered, it is found with alice and the time of her transaction,
    also after the calls that follow. *)
Lemma C7_verifyEvidence_is_a_lookup_witness :
  let s := constructor deployment in
  let s' := (call (addEvidence sample_digest (alice 1700000100 7) "a1f0" ""
                     "report.pdf" "application/pdf" 52133 "" "CASE-1") s).2 in
  call (verifyEvidence "a1f0") (run sample_digest s [])
  = (inr ((false, 0, 0, 0), []), run sample_digest s [])
  /\ call (verifyEvidence "a1f0") (run sample_digest s' after_the_seal)
     = (inr ((true, X, 2001, 1700000100), []), run sample_digest s' after_the_seal).
Proof.
  pose proof (C7_verifyEvidence_is_a_lookup sample_digest "a1f0"
                (constructor deployment)) as T.
  cbv zeta. destruct T as (_ & _ & Hnever & Hreg).
  split; [exact (Hnever deployment [] eq_refl)|].
  apply (Hreg (alice 1700000100 7) ""%string "report.pdf"%string
              "application/pdf"%string 52133 ""%string "CASE-1"%string X
              [EvidenceAdded X "a1f0" "report.pdf" "CASE-1" 2001 1700000100]).
  - by vm_compute.
  - by vm_compute.
  - evaluate.
Defined.

(** Bob tries to seal the report alice sealed: the call reverts and the
    storage is as before. *)
Lemma C9_failed_call_changes_nothing_witness :
  let s := run sample_digest (constructor deployment) registration_and_seal in
  (exec sample_digest (bob 1700000300 9) (CallSealEvidence X) s).1
    = inl (Revert IS_SEALED)
  /\ (exec sample_digest (bob 1700000300 9) (CallSealEvidence X) s).2 = s.
Proof.
  pose proof (C9_failed_call_changes_nothing sample_digest (bob 1700000300 9)
                (CallSealEvidence X)
                (run sample_digest (constructor deployment) registration_and_seal)
                (Revert IS_SEALED)) as T.
  cbv zeta.
  assert (H : (exec sample_digest (bob 1700000300 9) (CallSealEvidence X)
                 (run sample_digest (constructor deployment)
                    registration_and_seal)).1 = inl (Revert IS_SEALED))
    by (by vm_compute).
  split; [exact H | exact (proj1 (T H))].
Defined.

(** At the end of the scenario the index leads from the hash of the photo
    to the record of the photo. *)
Lemma C10_hash_index_consistent_witness :
  let s := run sample_digest (constructor deployment)
             (registration_and_seal ++ after_the_seal) in
  idOfHash s "b2e9" <> 0
  /\ fileHash (evidenceAt s (idOfHash s "b2e9")) = "b2e9"%string
  /\ call (getEvidenceByHash "b2e9") s
     = (inr (evidenceAt s (idOfHash s "b2e9"), []), s).
Proof.
  pose proof (C10_hash_index_consistent sample_digest deployment
                (registration_and_seal ++ after_the_seal) "b2e9") as T.
  cbv zeta in T |- *.
  assert (H1 : collision_free sample_digest (constructor deployment)
                 (registration_and_seal ++ after_the_seal)) by evaluate.
  assert (H2 : idOfHash (run sample_digest (constructor deployment)
                           (registration_and_seal ++ after_the_seal)) "b2e9" <> 0)
    by evaluate.
  destruct (T H1 H2) as (_ & Hf & _ & Hget & _).
  split; [exact H2|]. split; [exact Hf | exact Hget].
Defined.



(** ** The ledger in the scenario *)

(** The trail of the report, read after the registration and again at the
    end of the scenario. *)
Lemma audit_trail_only_grows_witness :
  exists later,
    call (getAuditLogs X) (run sample_digest (constructor deployment) registration)
    = (inr (logsAt (run sample_digest (constructor deployment) registration) X,
            []),
       run sample_digest (constructor deployment) registration)
    /\ call (getAuditLogs X)
         (run sample_digest
            (run sample_digest (constructor deployment) registration)
            after_the_seal)
       = (inr (logsAt (run sample_digest (constructor deployment) registration) X
               ++ later, []),
          run sample_digest
            (run sample_digest (constructor deployment) registration)
            after_the_seal).
Proof.
  apply (audit_trail_only_grows sample_digest
           (run sample_digest (constructor deployment) registration)
           after_the_seal X).
  by vm_compute.
Defined.

(** The report keeps its metadata through the seal and what follows. *)
Lemma record_metadata_never_changes_witness :
  fileHash (evidenceAt (run sample_digest
                          (run sample_digest (constructor deployment) registration)
                          (drop 1 registration_and_seal ++ after_the_seal)) X)
  = fileHash (evidenceAt (run sample_digest (constructor deployment) registration) X).
Proof.
  pose proof (record_metadata_never_changes sample_digest
                (run sample_digest (constructor deployment) registration)
                (drop 1 registration_and_seal ++ after_the_seal) X) as T.
  cbv zeta in T. destruct T as [Hf _]; [evaluate | by vm_compute | exact Hf].
Defined.

Lemma records_are_never_deleted_witness :
  call (getEvidence X)
    (run sample_digest (run sample_digest (constructor deployment) registration)
       after_the_seal)
  = (inr (evidenceAt
            (run sample_digest
               (run sample_digest (constructor deployment) registration)
               after_the_seal) X, []),
     run sample_digest (run sample_digest (constructor deployment) registration)
       after_the_seal).
Proof.
  apply (records_are_never_deleted sample_digest
           (run sample_digest (constructor deployment) registration)
           after_the_seal X).
  by vm_compute.
Defined.

Lemma listed_ids_are_distinct_witness :
  NoDup (allEvidenceIds (run sample_digest (constructor deployment)
                           (registration_and_seal ++ after_the_seal))).
Proof.
  apply (listed_ids_are_distinct sample_digest deployment
           (registration_and_seal ++ after_the_seal)).
  evaluate.
Defined.

(** The list of alice holds the report, which she uploaded. *)
Lemma uploader_list_holds_own_records_witness :
  X ∈ idsOf (run sample_digest (constructor deployment)
               (registration_and_seal ++ after_the_seal)) 2001
  <-> X ∈ allEvidenceIds (run sample_digest (constructor deployment)
                            (registration_and_seal ++ after_the_seal))
      /\ uploader (evidenceAt (run sample_digest (constructor deployment)
                                 (registration_and_seal ++ after_the_seal)) X)
         = 2001.
Proof.
  pose proof (uploader_list_holds_own_records sample_digest deployment
                (registration_and_seal ++ after_the_seal) 2001 X) as T.
  cbv zeta in T. destruct T as [_ T]; [evaluate | exact T].
Defined.

Lemma trail_starts_with_creation_witness :
  exists later,
    logsAt (run sample_digest (constructor deployment)
              (registration_and_seal ++ after_the_seal)) X
    = mkAuditLog
        (uploader (evidenceAt (run sample_digest (constructor deployment)
                                 (registration_and_seal ++ after_the_seal)) X))
        "EVIDENCE_ADDED"
        (timestamp (evidenceAt (run sample_digest (constructor deployment)
                                  (registration_and_seal ++ after_the_seal)) X))
        "Initial upload" :: later.
Proof.
  pose proof (trail_starts_with_creation sample_digest deployment
                (registration_and_seal ++ after_the_seal) X) as T.
  cbv zeta in T. apply T; [evaluate | by vm_compute].
Defined.

(** The sample digest is collision resistant on the two registrations of
    the scenario: the report is found by its hash. *)
Lemma one_record_per_hash_witness :
  call (verifyEvidence
          (fileHash (evidenceAt (run sample_digest (constructor deployment)
                                   (registration_and_seal ++ after_the_seal)) X)))
       (run sample_digest (constructor deployment)
          (registration_and_seal ++ after_the_seal))
  = (inr ((true, X,
           uploader (evidenceAt (run sample_digest (constructor deployment)
                                   (registration_and_seal ++ after_the_seal)) X),
           timestamp (evidenceAt (run sample_digest (constructor deployment)
                                    (registration_and_seal ++ after_the_seal)) X)),
          []),
     run sample_digest (constructor deployment)
       (registration_and_seal ++ after_the_seal)).
Proof.
  pose proof (one_record_per_hash sample_digest deployment
                (registration_and_seal ++ after_the_seal) X X) as T.
  cbv zeta in T. destruct T as [T _]; [|by vm_compute|by vm_compute|exact T].
  eassert (Hl : packedInputs (registration_and_seal ++ after_the_seal) = _)
    by (vm_compute; reflexivity).
  rewrite Hl. clear Hl. split.
  - intros x Hx. rewrite !elem_of_cons, elem_of_nil in Hx.
    destruct Hx as [->|[->|[]]]; vm_compute; discriminate.
  - intros x y Hx Hy. rewrite !elem_of_cons, elem_of_nil in Hx, Hy.
    destruct Hx as [->|[->|[]]], Hy as [->|[->|[]]]; intros H;
      first [reflexivity | exfalso; revert H; vm_compute; discriminate].
Defined.

(** Bob, and then the owner, try to seal the report alice sealed. *)
Lemma sealed_record_cannot_be_sealed_again_witness :
  call (sealEvidence (the_owner 1700000600 12) X)
    (run sample_digest
       (run sample_digest (constructor deployment) registration_and_seal)
       after_the_seal)
  = (inl (Revert IS_SEALED),
     run sample_digest
       (run sample_digest (constructor deployment) registration_and_seal)
       after_the_seal).
Proof.
  pose proof (sealed_record_cannot_be_sealed_again sample_digest deployment
                registration_and_seal after_the_seal X
                (the_owner 1700000600 12)) as T.
  cbv zeta in T. apply T; [by vm_compute | evaluate].
Defined.

(** Bob is neither the uploader of the report nor the owner: his status
    update leaves the report as it is. *)
Lemma stranger_cannot_change_records_witness :
  evidenceAt (exec sample_digest (bob 1700000200 8)
                (CallUpdateStatus X Disputed "x")
                (run sample_digest (constructor deployment) registration)).2 X
  = evidenceAt (run sample_digest (constructor deployment) registration) X.
Proof.
  apply (stranger_cannot_change_records sample_digest (bob 1700000200 8)
           (CallUpdateStatus X Disputed "x")
           (run sample_digest (constructor deployment) registration) X).
  - done.
  - by vm_compute.
  - vm_compute. discriminate.
  - vm_compute. discriminate.
Defined.

(** A sender and a time beyond the width of their types are packed as
    their low bits. *)
Lemma encodePacked_injective_witness :
  "a1f0"%string = "a1f0"%string
  /\ 2001 mod 2 ^ 160 = (2001 + 2 ^ 160) mod 2 ^ 160
  /\ 1700000100 mod 2 ^ 256 = (1700000100 + 2 ^ 256) mod 2 ^ 256
  /\ 7 mod 2 ^ 256 = 7 mod 2 ^ 256.
Proof.
  apply (encodePacked_injective "a1f0" 2001 1700000100 7
           "a1f0" (2001 + 2 ^ 160) (1700000100 + 2 ^ 256) 7).
  by vm_compute.
Defined.

Lemma serializeEvidence_is_faithful_witness :
  Backend.serializeEvidence
    (mkEvidence "a1f0" "" "report.pdf" "application/pdf" 52133 "" "CASE-1"
                1700000100 2001 true Disputed)
  = Backend.mkEvidenceJson "a1f0" "" "report.pdf" "application/pdf" 52133 ""
      "CASE-1" 1700000100 2001 true "Disputed".
Proof.
  pose proof (serializeEvidence_is_faithful
                (mkEvidence "a1f0" "" "report.pdf" "application/pdf" 52133 ""
                            "CASE-1" 1700000100 2001 true Disputed)) as T.
  destruct T as [T _]; [cbn; lia | cbn; lia | exact T].
Defined.

(** At the end of the scenario the photo is verified and an unknown file
    is not. *)
Lemma verifyRoute_answers_witness :
  Backend.verifyRoute "b2e9"
    (run sample_digest (constructor deployment)
       (registration_and_seal ++ after_the_seal))
  = Backend.VerifyValid "b2e9"
      (Backend.mkEvidenceJson "b2e9" "" "photo.png" "image/png" 904 "" "CASE-1"
         1700000500 3002 false "Active")
      [Backend.mkAuditLogJson 3002 "EVIDENCE_ADDED" 1700000500 "Initial upload"]
  /\ Backend.verifyRoute "c3d8"
       (run sample_digest (constructor deployment)
          (registration_and_seal ++ after_the_seal))
     = Backend.VerifyInvalid "c3d8".
Proof.
  assert (Hcf : collision_free sample_digest (constructor deployment)
                  (registration_and_seal ++ after_the_seal)) by evaluate.
  pose proof (verifyRoute_answers sample_digest deployment
                (registration_and_seal ++ after_the_seal) "b2e9") as T1.
  pose proof (verifyRoute_answers sample_digest deployment
                (registration_and_seal ++ after_the_seal) "c3d8") as T2.
  cbv zeta in T1, T2. specialize (T1 Hcf). specialize (T2 Hcf).
  pose proof (proj1 T1) as E1. pose proof (proj1 T2) as E2. clear T1 T2.
  rewrite E1, E2. split; vm_compute; reflexivity.
Defined.

(** Alice uploads the report; bob uploads the same file at the end of the
    scenario and is answered with a conflict that carries her identifier. *)
Lemma upload_is_registered_once_witness :
  Backend.upload sample_digest 1 node_accounts 1700000600 12 resubmission
    (run sample_digest
       (Backend.upload sample_digest 1 node_accounts 1700000100 7
          (Backend.mkUploadRequest "a1f0" "report.pdf" "application/pdf" 52133
             None None None None (Some "CASE-1"%string) (Some 2001) None)
          (constructor deployment)).2
       after_the_seal)
  = (Backend.Conflict X,
     run sample_digest
       (Backend.upload sample_digest 1 node_accounts 1700000100 7
          (Backend.mkUploadRequest "a1f0" "report.pdf" "application/pdf" 52133
             None None None None (Some "CASE-1"%string) (Some 2001) None)
          (constructor deployment)).2
       after_the_seal).
Proof.
  pose proof (upload_is_registered_once sample_digest 1 node_accounts
                1700000100 7
                (Backend.mkUploadRequest "a1f0" "report.pdf" "application/pdf"
                   52133 None None None None (Some "CASE-1"%string) (Some 2001)
                   None)
                (constructor deployment) (Some X)
                (Backend.upload sample_digest 1 node_accounts 1700000100 7
                   (Backend.mkUploadRequest "a1f0" "report.pdf"
                      "application/pdf" 52133 None None None None
                      (Some "CASE-1"%string) (Some 2001) None)
                   (constructor deployment)).2
                after_the_seal) as T.
  cbv zeta in T. destruct T as (_ & T & _).
  - by vm_compute.
  - vm_compute. discriminate.
  - evaluate.
  - exact (T 1 node_accounts 1700000600 12 resubmission eq_refl).
Defined.

(** The trail of the sealed report holds the entry of alice's seal. *)
Lemma sealed_records_have_a_seal_entry_witness :
  exists l,
    l ∈ logsAt (run sample_digest (constructor deployment)
                  (registration_and_seal ++ after_the_seal)) X
    /\ action l = "EVIDENCE_SEALED"%string
    /\ (actor l = uploader (evidenceAt (run sample_digest (constructor deployment)
                                          (registration_and_seal ++ after_the_seal))
                              X)
        \/ actor l = msg_sender deployment).
Proof.
  pose proof (sealed_records_have_a_seal_entry sample_digest deployment
                (registration_and_seal ++ after_the_seal) X) as T.
  cbv zeta in T. apply T. by vm_compute.
Defined.

(** ** The service in the scenario *)

(** A size below zero is refused by web3 before anything is sent. *)
Example upload_refuses_a_negative_size :
  Backend.upload sample_digest 1 node_accounts 1700000600 12
    (Backend.mkUploadRequest "c3d8" "notes.txt" "text/plain" 120
       None None (Some (-5)) None None (Some 3002) None)
    (run sample_digest (constructor deployment) registration)
  = (Backend.ServerError Backend.InvalidArgument,
     run sample_digest (constructor deployment) registration).
Proof. by vm_compute. Qed.

(** A sender the node has no account for is refused when the transaction
    is sent: nothing is registered. *)
Example upload_refuses_an_unknown_sender :
  Backend.upload sample_digest 1 node_accounts 1700000600 12
    (Backend.mkUploadRequest "c3d8" "notes.txt" "text/plain" 120
       None None None None None (Some 4004) None)
    (run sample_digest (constructor deployment) registration)
  = (Backend.ServerError Backend.UnknownAccount,
     run sample_digest (constructor deployment) registration).
Proof. by vm_compute. Qed.

(** Alice may seal her report, but the service can send the transaction for
    her only when the node holds her account. *)
Example seal_needs_a_signing_account :
  Backend.sealRoute 1 [1] 1700000200 8 X (Some 2001)
    (run sample_digest (constructor deployment) registration)
  = (Backend.SealError Backend.UnknownAccount,
     run sample_digest (constructor deployment) registration)
  /\ (Backend.sealRoute 1 node_accounts 1700000200 8 X (Some 2001)
        (run sample_digest (constructor deployment) registration)).1
     = Backend.SealOk
  /\ Backend.sealRoute 1 node_accounts 1700000200 8 X (Some 4004)
       (run sample_digest (constructor deployment) registration)
     = (Backend.SealError (Backend.Reverted (Revert NOT_AUTHORIZED_TO_SEAL)),
        run sample_digest (constructor deployment) registration).
Proof. repeat split; by vm_compute. Qed.
